(** * QuickHire job-board server: a shallow embedding of its route handlers

    The server is one Express application over two MongoDB collections
    ([jobs] and [applications]).  Each handler is embedded as a function
    from the request and the collections to a response and the new
    collections.  What the handlers delegate to libraries (BSON object
    identifiers, the WHATWG URL parser, the regular expressions the
    database evaluates, Unicode lower-casing) is kept abstract in the
    class [Externals]; one instance, [Sample.externals], follows the
    definitions and is used wherever a statement is run on an input.

    Embedded are the routes [GET /api/jobs], [GET /api/jobs/:id],
    [POST /api/jobs], [DELETE /api/jobs/:id] and [POST /api/applications];
    [GET /api/applications], [GET /api/applications/:jobId] and
    [POST /api/seed] follow in the part on the other routes.
    The date of a request and the [_id] the driver generates for a new
    document are inputs of the handlers.  The database is taken to be
    reachable: a database operation fails only for a reason the
    embedding determines (a duplicate [_id], a pattern the database
    rejects, a limit the driver does not take). *)

From Stdlib Require Import List Bool Arith NArith ZArith Lia String Ascii Sorted
  Permutation SpecFloat DecimalString.
Import ListNotations.

Set Implicit Arguments.
Set Warnings "-register-all".

(** ** JavaScript strings *)

(** A JavaScript string is a sequence of UTF-16 code units. *)
Definition jsstr := list N.

(** The code units of an ASCII literal of the source. *)
Definition lit (s : string) : jsstr :=
  List.map N_of_ascii (list_ascii_of_string s).

Definition jsstr_eqb (a b : jsstr) : bool :=
  if list_eq_dec N.eq_dec a b then true else false.

(** ECMAScript WhiteSpace and LineTerminator code units: what
    [String.prototype.trim] strips and what [\s] matches. *)
Definition is_space (c : N) : bool :=
  ((9 <=? c) && (c <=? 13) || (c =? 32) || (c =? 160) || (c =? 5760)
   || (8192 <=? c) && (c <=? 8202) || (c =? 8232) || (c =? 8233)
   || (c =? 8239) || (c =? 8287) || (c =? 12288) || (c =? 65279))%N.

Fixpoint trimStart (s : jsstr) : jsstr :=
  match s with
  | c :: s' => if is_space c then trimStart s' else s
  | [] => []
  end.

Definition trimEnd (s : jsstr) : jsstr := rev (trimStart (rev s)).

(** [s.trim()] *)
Definition trim (s : jsstr) : jsstr := trimEnd (trimStart s).

(** [arr.join(sep)] on an array of strings. *)
Fixpoint join (sep : jsstr) (l : list jsstr) : jsstr :=
  match l with
  | [] => []
  | [x] => x
  | x :: l' => x ++ sep ++ join sep l'
  end.

(** ** JavaScript values

    The values a parsed JSON body can hold, and [undefined] for a
    property that is absent.  A number is an IEEE 754 value: a signed
    zero, an infinity, NaN, or sign, mantissa and exponent. *)
Inductive value : Type :=
| VUndefined
| VNull
| VBool (b : bool)
| VNum (n : spec_float)
| VStr (s : jsstr)
| VArr (l : list value)
| VObj (l : list (jsstr * value)).

(** ToBoolean: [undefined], [null], [false], [0], [-0], [NaN] and the
    empty string are falsy, every other value is truthy. *)
Definition truthy (v : value) : bool :=
  match v with
  | VUndefined | VNull => false
  | VBool b => b
  | VNum (S754_zero _) | VNum S754_nan => false
  | VNum _ => true
  | VStr s => negb (jsstr_eqb s [])
  | VArr _ | VObj _ => true
  end.

(** [a || b] *)
Definition js_or (a b : value) : value := if truthy a then a else b.

Example truthy_examples :
  truthy (VNum (S754_zero false)) = false /\
  truthy (VNum (S754_zero true)) = false /\
  truthy (VNum (S754_finite false 5 (-1))) = true /\
  truthy (VStr (lit "yes")) = true /\
  truthy (VStr []) = false /\ trim (lit "  a b  ") = lit "a b".
Proof. repeat split; reflexivity. Qed.

(** ** What the handlers delegate to libraries *)

Class Externals : Type := {
  (** BSON object identifiers. *)
  ObjectId : Type;
  oid_eq_dec : forall a b : ObjectId, {a = b} + {a <> b};
  (** [ObjectId.isValid(v)] *)
  isValid : value -> bool;
  (** [new ObjectId(v)], reached only after [isValid]. *)
  newObjectId : value -> ObjectId;
  (** The 24-digit rendering under which an identifier travels in a JSON
      response and comes back as a route parameter. *)
  toHexString : ObjectId -> jsstr;
  toHexString_isValid : forall o, isValid (VStr (toHexString o)) = true;
  newObjectId_toHexString : forall o, newObjectId (VStr (toHexString o)) = o;
  (** [new URL(s)] does not throw. *)
  url_parses : jsstr -> bool;
  (** The database accepts the pattern of [{ $regex: p, $options: o }]. *)
  regex_valid : jsstr -> jsstr -> bool;
  (** [regex_test p o s]: the string [s] matches [{ $regex: p, $options: o }]. *)
  regex_test : jsstr -> jsstr -> jsstr -> bool;
  (** [s.toLowerCase()] *)
  toLowerCase : jsstr -> jsstr;
  (** [cursor.limit(x)] for an [x] that is NaN ([None]), negative or
      above 2^53: from [x] and the number of documents the cursor would
      yield, how many it does yield, or [None] when the command fails. *)
  limit_irregular : option Z -> nat -> option nat
}.

Section Server.

Context {E : Externals}.

(** ** Documents and collections *)

(** A document of the [jobs] collection.  A property the document does
    not have reads as [VUndefined]; [created_at] is a date, in
    milliseconds since the epoch. *)
Record job : Type := {
  _id : ObjectId;
  title : value;
  company : value;
  location : value;
  category : value;
  categories : value;
  description : value;
  type : value;
  featured : value;
  logo : value;
  created_at : Z
}.

(** A document of the [applications] collection. *)
Record application : Type := {
  app_id : ObjectId;
  job_id : ObjectId;
  name : jsstr;
  email : jsstr;
  resume_link : jsstr;
  cover_note : jsstr;
  app_created_at : Z
}.

Record store : Type := {
  jobsCollection : list job;
  applicationsCollection : list application
}.

(** [insertOne]: the driver has given the document its [_id]; the
    collection refuses an [_id] it already holds (duplicate key). *)
Definition has_id (id : ObjectId) (j : job) : bool :=
  if oid_eq_dec (_id j) id then true else false.

Definition insertOne (doc : job) (c : list job) : option (list job) :=
  if existsb (has_id (_id doc)) c then None else Some (c ++ [doc]).

(** [findOne({ _id: id })] *)
Definition findOne (id : ObjectId) (c : list job) : option job :=
  find (has_id id) c.

(** [deleteOne({ _id: id })]: the collection without its first document
    of that [_id], and [deletedCount]. *)
Fixpoint deleteOne (id : ObjectId) (c : list job) : list job * nat :=
  match c with
  | [] => ([], 0)
  | j :: c' =>
      if has_id id j then (c', 1)
      else let (r, n) := deleteOne id c' in (j :: r, n)
  end.

Definition app_has_id (id : ObjectId) (a : application) : bool :=
  if oid_eq_dec (app_id a) id then true else false.

Definition insertOneApplication (doc : application) (c : list application)
  : option (list application) :=
  if existsb (app_has_id (app_id doc)) c then None else Some (c ++ [doc]).

(** ** Responses *)

Inductive payload : Type :=
| PError (error : jsstr)
| PMessage (message : jsstr)
| PJobs (jobs : list job) (total : nat)
| PJob (j : job)
| PJobCreated (message : jsstr) (jobId : ObjectId) (j : job)
| PApplicationCreated (message : jsstr) (applicationId : ObjectId).

Record response : Type := { status : nat; json : payload }.

(** [res.status(n).json(p)] and [res.json(p)] *)
Definition res_status (n : nat) (p : payload) : response :=
  {| status := n; json := p |}.
Definition res_json (p : payload) : response := res_status 200 p.

(** ** Control flow of a handler body

    A step of a handler body either goes on with a value, or returns a
    response early ([return res.status(..).json(..)]), or throws. *)
Inductive flow (A : Type) : Type :=
| Next (a : A)
| Reply (r : response)
| Throw.
Arguments Reply {A} r.
Arguments Throw {A}.

Definition bind {A B} (c : flow A) (k : A -> flow B) : flow B :=
  match c with
  | Next a => k a
  | Reply r => Reply r
  | Throw => Throw
  end.

(** [try { body } catch (err) { res.status(500).json({ error }) }] over a
    collection state [st]: a body that returned early or threw has not
    written. *)
Definition try_catch {S} (st : S) (error : string)
  (body : flow (response * S)) : response * S :=
  match body with
  | Next rs => rs
  | Reply r => (r, st)
  | Throw => (res_status 500 (PError (lit error)), st)
  end.

Notation "x <- c ;; k" := (bind c (fun x => k))
  (at level 61, c at next level, right associativity).

(** ** The query of [GET /api/jobs] *)

(** The query-string parameters the handler reads; [None] is an absent
    parameter.  (Express also parses repeated and bracketed keys into
    arrays and objects; the handler is embedded on string parameters.) *)
Record jobs_params : Type := {
  keyword : option jsstr;
  p_location : option jsstr;
  p_category : option jsstr;
  p_featured : option jsstr;
  limit : option jsstr;
  sort : option jsstr
}.

(** [if (p)] on a parameter: present and not the empty string. *)
Definition supplied (p : option jsstr) : option jsstr :=
  match p with
  | Some (c :: s) => Some (c :: s)
  | _ => None
  end.

Inductive path : Type :=
| title_ | company_ | description_ | location_ | category_ | categories_.

Definition get (f : path) (d : job) : value :=
  match f with
  | title_ => title d
  | company_ => company d
  | description_ => description d
  | location_ => location d
  | category_ => category d
  | categories_ => categories d
  end.

(** The two shapes of field condition the handler writes:
    [{ f: { $regex: r, $options: o } }] and
    [{ f: { $elemMatch: { $regex: r, $options: o } } }]. *)
Inductive cond : Type :=
| Regex (f : path) (regex options : jsstr)
| ElemMatchRegex (f : path) (regex options : jsstr).

(** The filter object, by the keys the handler sets on it: ["$or"],
    ["location"], ["$and"] (each element an object [{ "$or": [...] }])
    and ["featured"].  [None] is a key the object does not have. *)
Record query : Type := {
  or_ : option (list cond);
  loc_ : option cond;
  and_ : option (list (list cond));
  featured_ : option bool
}.

Definition empty_query : query :=
  {| or_ := None; loc_ := None; and_ := None; featured_ := None |}.
Definition set_or (v : option (list cond)) (q : query) : query :=
  {| or_ := v; loc_ := loc_ q; and_ := and_ q; featured_ := featured_ q |}.
Definition set_loc (v : cond) (q : query) : query :=
  {| or_ := or_ q; loc_ := Some v; and_ := and_ q; featured_ := featured_ q |}.
Definition set_and (v : list (list cond)) (q : query) : query :=
  {| or_ := or_ q; loc_ := loc_ q; and_ := Some v; featured_ := featured_ q |}.
Definition set_featured (v : bool) (q : query) : query :=
  {| or_ := or_ q; loc_ := loc_ q; and_ := and_ q; featured_ := Some v |}.

Definition i_ : jsstr := lit "i".

(** Lines 43-74 of the handler. *)
Definition build_query (p : jobs_params) : query :=
  let query := empty_query in
  let query :=
    match supplied (keyword p) with
    | Some keyword =>
        set_or (Some [Regex title_ keyword i_;
                      Regex company_ keyword i_;
                      Regex description_ keyword i_]) query
    | None => query
    end in
  let query :=
    match supplied (p_location p) with
    | Some location => set_loc (Regex location_ location i_) query
    | None => query
    end in
  let query :=
    match supplied (p_category p) with
    | Some category =>
        let query :=
          set_or (Some (match or_ query with Some l => l | None => [] end))
                 query in
        let catConds := [Regex category_ category i_;
                         ElemMatchRegex categories_ category i_] in
        match or_ query with
        | Some (c :: l) =>
            set_or None (set_and [c :: l; catConds] query)
        | _ => set_or (Some catConds) query
        end
    | None => query
    end in
  if match p_featured p with
     | Some f => jsstr_eqb f (lit "true")
     | None => false
     end
  then set_featured true query
  else query.

(** *** How the database evaluates the filter *)

Definition elem_regex (r o : jsstr) (x : value) : bool :=
  match x with
  | VStr s => regex_test r o s
  | _ => false
  end.

(** [{ $regex: r, $options: o }] on the value of a field: a string that
    matches, or an array one of whose elements is a string that
    matches. *)
Definition regex_on (r o : jsstr) (v : value) : bool :=
  match v with
  | VStr s => regex_test r o s
  | VArr l => existsb (elem_regex r o) l
  | _ => false
  end.

(** [{ $elemMatch: { $regex: r, $options: o } }] on the value of a field:
    an array one of whose elements is a string that matches. *)
Definition elemMatch_on (r o : jsstr) (v : value) : bool :=
  match v with
  | VArr l => existsb (elem_regex r o) l
  | _ => false
  end.

Definition cond_matches (c : cond) (d : job) : bool :=
  match c with
  | Regex f r o => regex_on r o (get f d)
  | ElemMatchRegex f r o => elemMatch_on r o (get f d)
  end.

Definition or_matches (cs : list cond) (d : job) : bool :=
  existsb (fun c => cond_matches c d) cs.

(** Equality with a boolean: the value itself, or an element of an array
    value. *)
Definition equals_bool (b : bool) (v : value) : bool :=
  let same x := match x with VBool b' => Bool.eqb b b' | _ => false end in
  match v with
  | VArr l => existsb same l
  | _ => same v
  end.

Definition when {A} (o : option A) (f : A -> bool) : bool :=
  match o with
  | Some a => f a
  | None => true
  end.

(** All the keys of the filter object have to hold. *)
Definition matches (q : query) (d : job) : bool :=
  when (or_ q) (fun cs => or_matches cs d)
  && when (loc_ q) (fun c => cond_matches c d)
  && when (and_ q) (forallb (fun cs => or_matches cs d))
  && when (featured_ q) (fun b => equals_bool b (featured d)).

Definition cond_valid (c : cond) : bool :=
  match c with
  | Regex _ r o | ElemMatchRegex _ r o => regex_valid r o
  end.

Definition query_valid (q : query) : bool :=
  when (or_ q) (forallb cond_valid)
  && when (loc_ q) cond_valid
  && when (and_ q) (forallb (forallb cond_valid)).

(** [.find(query)]: the matching documents in collection order; the
    command fails on a pattern the database rejects. *)
Definition find_query (q : query) (c : list job) : option (list job) :=
  if query_valid q then Some (filter (matches q) c) else None.

(** [.sort({ created_at: dir })]: [dir] is [-1] for descending and [1]
    for ascending; documents of equal date keep their order. *)
Definition before (dir : Z) (a b : job) : bool :=
  if (dir <? 0)%Z then (created_at b <=? created_at a)%Z
  else (created_at a <=? created_at b)%Z.

Fixpoint insert_sorted (dir : Z) (x : job) (l : list job) : list job :=
  match l with
  | [] => [x]
  | y :: l' =>
      if before dir y x then y :: insert_sorted dir x l' else x :: y :: l'
  end.

Definition sort_created_at (dir : Z) (l : list job) : list job :=
  fold_left (fun acc x => insert_sorted dir x acc) l [].

(** [.limit(n)]: [0] is no limit, a positive [n] keeps the first [n]
    documents. *)
Definition cursor_limit (n : option Z) (l : list job) : option (list job) :=
  match n with
  | Some z =>
      if (z =? 0)%Z then Some l
      else if ((0 <? z) && (z <=? 2 ^ 53))%Z then Some (firstn (Z.to_nat z) l)
      else option_map (fun k => firstn k l) (limit_irregular n (List.length l))
  | None => option_map (fun k => firstn k l) (limit_irregular n (List.length l))
  end.

(** [parseInt(s)] with no radix: leading white space is skipped, a sign
    is read, a [0x] or [0X] prefix selects radix 16, and the longest run
    of digits is the value; [None] is NaN.  The value is the integer the
    digits write: the number JavaScript returns as long as it is at most
    2^53 in absolute value, beyond which JavaScript rounds it. *)
Definition digit_value (radix c : N) : option N :=
  let d := if ((48 <=? c) && (c <=? 57))%N then Some (c - 48)%N
           else if ((97 <=? c) && (c <=? 122))%N then Some (c - 87)%N
           else if ((65 <=? c) && (c <=? 90))%N then Some (c - 55)%N
           else None in
  match d with
  | Some v => if (v <? radix)%N then Some v else None
  | None => None
  end.

Fixpoint parse_digits (radix : N) (s : jsstr) (acc : option N) : option N :=
  match s with
  | c :: s' =>
      match digit_value radix c with
      | Some d =>
          parse_digits radix s'
            (Some (radix * match acc with Some a => a | None => 0 end + d)%N)
      | None => acc
      end
  | [] => acc
  end.

Definition parseInt (s : jsstr) : option Z :=
  let S := trimStart s in
  let (sign, S) :=
    match S with
    | 45%N :: r => ((-1)%Z, r)
    | 43%N :: r => (1%Z, r)
    | _ => (1%Z, S)
    end in
  let (R, S) :=
    match S with
    | 48%N :: 120%N :: r => (16%N, r)
    | 48%N :: 88%N :: r => (16%N, r)
    | _ => (10%N, S)
    end in
  option_map (fun m => (sign * Z.of_N m)%Z) (parse_digits R S None).

(** ** Jobs routes *)

(** [GET /api/jobs] *)
Definition list_jobs (p : jobs_params) (st : store) : response * store :=
  try_catch st "Failed to fetch jobs"
    (let query := build_query p in
     let sortOption :=
       if match sort p with
          | Some s => jsstr_eqb s (lit "newest")
          | None => false
          end
       then (-1)%Z else (-1)%Z in
     let limitNum :=
       match supplied (limit p) with
       | Some limit => parseInt limit
       | None => Some 0%Z
       end in
     match find_query query (jobsCollection st) with
     | Some found =>
         match cursor_limit limitNum (sort_created_at sortOption found) with
         | Some jobs => Next (res_json (PJobs jobs (List.length jobs)), st)
         | None => Throw
         end
     | None => Throw
     end).

(** [GET /api/jobs/:id] *)
Definition get_job (id : jsstr) (st : store) : response * store :=
  try_catch st "Failed to fetch job"
    (if negb (isValid (VStr id))
     then Reply (res_status 400 (PError (lit "Invalid job ID")))
     else
       match findOne (newObjectId (VStr id)) (jobsCollection st) with
       | None => Reply (res_status 404 (PError (lit "Job not found")))
       | Some job => Next (res_json (PJob job), st)
       end).

(** The body of [POST /api/jobs]; an absent property is [VUndefined]. *)
Record job_body : Type := {
  b_title : value;
  b_company : value;
  b_location : value;
  b_category : value;
  b_description : value;
  b_type : value;
  b_featured : value;
  b_logo : value
}.

(** [!v?.trim()]: [true] on [undefined] and [null]; on a string, whether
    its trimmed form is empty; any other value has no [trim] method and
    the call throws. *)
Definition not_trim (v : value) : flow bool :=
  match v with
  | VUndefined | VNull => Next true
  | VStr s => Next (jsstr_eqb (trim s) [])
  | _ => Throw
  end.

(** [v.trim()] *)
Definition trim_of (v : value) : flow value :=
  match v with
  | VStr s => Next (VStr (trim s))
  | _ => Throw
  end.

(** [if (!v?.trim()) missing.push(name)] *)
Definition push_missing (v : value) (name : string) (missing : list jsstr)
  : flow (list jsstr) :=
  b <- not_trim v ;;
  Next (if b then missing ++ [lit name] else missing).

(** [POST /api/jobs], at the date [now] and with [fresh] the [_id] the
    driver gives the new document. *)
Definition create_job (now : Z) (fresh : ObjectId) (b : job_body) (st : store)
  : response * store :=
  try_catch st "Failed to create job"
    (missing <- push_missing (b_title b) "title" [] ;;
     missing <- push_missing (b_company b) "company" missing ;;
     missing <- push_missing (b_location b) "location" missing ;;
     missing <- push_missing (b_category b) "category" missing ;;
     missing <- push_missing (b_description b) "description" missing ;;
     match missing with
     | _ :: _ =>
         Reply (res_status 400
           (PError (lit "Missing required fields: " ++ join (lit ", ") missing)))
     | [] =>
         title' <- trim_of (b_title b) ;;
         company' <- trim_of (b_company b) ;;
         location' <- trim_of (b_location b) ;;
         category' <- trim_of (b_category b) ;;
         description' <- trim_of (b_description b) ;;
         let newJob :=
           {| _id := fresh;
              title := title';
              company := company';
              location := location';
              category := category';
              categories := VUndefined;
              description := description';
              type := js_or (b_type b) (VStr (lit "Full Time"));
              featured := js_or (b_featured b) (VBool false);
              logo := js_or (b_logo b) VNull;
              created_at := now |} in
         match insertOne newJob (jobsCollection st) with
         | Some jobs' =>
             Next (res_status 201
                     (PJobCreated (lit "Job created successfully") fresh newJob),
                   {| jobsCollection := jobs';
                      applicationsCollection := applicationsCollection st |})
         | None => Throw
         end
     end).

(** [DELETE /api/jobs/:id] *)
Definition delete_job (id : jsstr) (st : store) : response * store :=
  try_catch st "Failed to delete job"
    (if negb (isValid (VStr id))
     then Reply (res_status 400 (PError (lit "Invalid job ID")))
     else
       let (jobs', deletedCount) :=
         deleteOne (newObjectId (VStr id)) (jobsCollection st) in
       if Nat.eqb deletedCount 0
       then Reply (res_status 404 (PError (lit "Job not found")))
       else Next (res_json (PMessage (lit "Job deleted successfully")),
                  {| jobsCollection := jobs';
                     applicationsCollection := applicationsCollection st |})).

(** ** Applications route *)

(** [/^[^\s@]+@[^\s@]+\.[^\s@]+$/.test(s)].  [plain] is the class
    [[^\s@]].  The first run of plain characters cannot go past the first
    ["@"], so it is the longest plain prefix; what follows the ["@"] is
    plain to the end and has a ["."] that is neither its first nor its
    last character. *)
Definition plain (c : N) : bool := negb (is_space c || (c =? 64)%N).

Fixpoint span_plain (s : jsstr) : jsstr * jsstr :=
  match s with
  | c :: s' =>
      if plain c then let (a, r) := span_plain s' in (c :: a, r) else ([], s)
  | [] => ([], [])
  end.

Fixpoint dot_then_more (s : jsstr) : bool :=
  match s with
  | c :: s' =>
      match s' with
      | _ :: _ => (c =? 46)%N || dot_then_more s'
      | [] => false
      end
  | [] => false
  end.

Definition emailRegex_test (s : jsstr) : bool :=
  match span_plain s with
  | (_ :: _, 64%N :: d) =>
      forallb plain d && match d with _ :: r => dot_then_more r | [] => false end
  | _ => false
  end.

(** The body of [POST /api/applications]. *)
Record application_body : Type := {
  b_job_id : value;
  b_name : value;
  b_email : value;
  b_resume_link : value;
  b_cover_note : value
}.

(** [a || b] on conditions that may throw: [b] is not evaluated when [a]
    holds. *)
Definition orelse (a b : flow bool) : flow bool :=
  x <- a ;; if x then Next true else b.

(** A value used as a string where the presence check has let through
    strings only. *)
Definition str_of (v : value) : flow jsstr :=
  match v with
  | VStr s => Next s
  | _ => Throw
  end.

(** [POST /api/applications], at the date [now] and with [fresh] the
    [_id] the driver gives the new document. *)
Definition submit_application (now : Z) (fresh : ObjectId)
  (b : application_body) (st : store) : response * store :=
  try_catch st "Failed to submit application"
    (absent <- orelse (Next (negb (truthy (b_job_id b))))
                (orelse (not_trim (b_name b))
                (orelse (not_trim (b_email b))
                (orelse (not_trim (b_resume_link b))
                        (not_trim (b_cover_note b))))) ;;
     if absent
     then Reply (res_status 400 (PError (lit "All fields are required")))
     else
       email' <- str_of (b_email b) ;;
       if negb (emailRegex_test email')
       then Reply (res_status 400 (PError (lit "Invalid email format")))
       else
         resume_link' <- str_of (b_resume_link b) ;;
         if negb (url_parses resume_link')
         then Reply (res_status 400
                       (PError (lit "Resume link must be a valid URL")))
         else
           if negb (isValid (b_job_id b))
           then Reply (res_status 400 (PError (lit "Invalid job ID")))
           else
             match findOne (newObjectId (b_job_id b)) (jobsCollection st) with
             | None => Reply (res_status 404 (PError (lit "Job not found")))
             | Some _ =>
                 name' <- str_of (b_name b) ;;
                 cover_note' <- str_of (b_cover_note b) ;;
                 let application :=
                   {| app_id := fresh;
                      job_id := newObjectId (b_job_id b);
                      name := trim name';
                      email := toLowerCase (trim email');
                      resume_link := trim resume_link';
                      cover_note := trim cover_note';
                      app_created_at := now |} in
                 match insertOneApplication application
                         (applicationsCollection st) with
                 | Some apps' =>
                     Next (res_status 201
                             (PApplicationCreated
                                (lit "Application submitted successfully")
                                fresh),
                           {| jobsCollection := jobsCollection st;
                              applicationsCollection := apps' |})
                 | None => Throw
                 end
             end).

(** ** The server

    A request, with what the environment supplies for it, and the
    collections after a sequence of requests. *)
Inductive request : Type :=
| GetJobs (p : jobs_params)
| GetJob (id : jsstr)
| PostJob (now : Z) (fresh : ObjectId) (b : job_body)
| DeleteJob (id : jsstr)
| PostApplication (now : Z) (fresh : ObjectId) (b : application_body).

Definition handle (r : request) (st : store) : response * store :=
  match r with
  | GetJobs p => list_jobs p st
  | GetJob id => get_job id st
  | PostJob now fresh b => create_job now fresh b st
  | DeleteJob id => delete_job id st
  | PostApplication now fresh b => submit_application now fresh b st
  end.

Definition serve (rs : list request) (st : store) : store :=
  fold_left (fun st r => snd (handle r st)) rs st.

End Server.

Arguments Reply {E A} r.
Arguments Throw {E A}.

(** ** A sample environment

    One instance of [Externals], on which the handlers run: an
    identifier is twelve bytes, written as 24 hexadecimal digits; a link
    parses as a URL when it starts with [http://] or [https://]; every
    pattern is accepted and searched as a substring, letters A-Z and a-z
    identified; a negative limit keeps as many documents as its absolute
    value and a NaN limit fails. *)
Module Sample.

Definition oid : Type :=
  (Byte.byte * Byte.byte * Byte.byte * Byte.byte * Byte.byte * Byte.byte *
   Byte.byte * Byte.byte * Byte.byte * Byte.byte * Byte.byte * Byte.byte)%type.

Definition hex_digit (n : N) : N :=
  if (n <? 10)%N then (48 + n)%N else (87 + n)%N.

Definition hex_of_byte (b : Byte.byte) : jsstr :=
  [hex_digit (Byte.to_N b / 16); hex_digit (Byte.to_N b mod 16)].

Definition byte_of_hex (hi lo : N) : option Byte.byte :=
  match digit_value 16 hi, digit_value 16 lo with
  | Some h, Some l => Byte.of_N (16 * h + l)
  | _, _ => None
  end.

Definition to_hex (o : oid) : jsstr :=
  let '(b1, b2, b3, b4, b5, b6, b7, b8, b9, b10, b11, b12) := o in
  hex_of_byte b1 ++ hex_of_byte b2 ++ hex_of_byte b3 ++ hex_of_byte b4 ++
  hex_of_byte b5 ++ hex_of_byte b6 ++ hex_of_byte b7 ++ hex_of_byte b8 ++
  hex_of_byte b9 ++ hex_of_byte b10 ++ hex_of_byte b11 ++ hex_of_byte b12.

Definition obind {A B} (o : option A) (k : A -> option B) : option B :=
  match o with
  | Some a => k a
  | None => None
  end.

Definition of_hex (s : jsstr) : option oid :=
  match s with
  | [c1; c2; c3; c4; c5; c6; c7; c8; c9; c10; c11; c12;
     c13; c14; c15; c16; c17; c18; c19; c20; c21; c22; c23; c24] =>
      obind (byte_of_hex c1 c2) (fun b1 =>
      obind (byte_of_hex c3 c4) (fun b2 =>
      obind (byte_of_hex c5 c6) (fun b3 =>
      obind (byte_of_hex c7 c8) (fun b4 =>
      obind (byte_of_hex c9 c10) (fun b5 =>
      obind (byte_of_hex c11 c12) (fun b6 =>
      obind (byte_of_hex c13 c14) (fun b7 =>
      obind (byte_of_hex c15 c16) (fun b8 =>
      obind (byte_of_hex c17 c18) (fun b9 =>
      obind (byte_of_hex c19 c20) (fun b10 =>
      obind (byte_of_hex c21 c22) (fun b11 =>
      obind (byte_of_hex c23 c24) (fun b12 =>
      Some (b1, b2, b3, b4, b5, b6, b7, b8, b9, b10, b11, b12)))))))))))))
  | _ => None
  end.

Definition zero : oid :=
  let z := Byte.x00 in (z, z, z, z, z, z, z, z, z, z, z, z).

Definition is_valid (v : value) : bool :=
  match v with
  | VStr s => match of_hex s with Some _ => true | None => false end
  | _ => false
  end.

Definition new_oid (v : value) : oid :=
  match v with
  | VStr s => match of_hex s with Some o => o | None => zero end
  | _ => zero
  end.

Definition lower (c : N) : N :=
  if ((65 <=? c) && (c <=? 90))%N then (c + 32)%N else c.

Fixpoint prefix_of (p s : jsstr) : bool :=
  match p, s with
  | [], _ => true
  | a :: p', b :: s' => (a =? b)%N && prefix_of p' s'
  | _ :: _, [] => false
  end.

Fixpoint infix_of (p s : jsstr) : bool :=
  prefix_of p s || match s with _ :: s' => infix_of p s' | [] => false end.

Definition search (p o s : jsstr) : bool :=
  if jsstr_eqb o (lit "i")
  then infix_of (List.map lower p) (List.map lower s)
  else infix_of p s.

Definition parses (s : jsstr) : bool :=
  prefix_of (lit "http://") s || prefix_of (lit "https://") s.

Definition irregular (n : option Z) (count : nat) : option nat :=
  match n with
  | Some z => if (z <? 0)%Z then Some (Nat.min (Z.to_nat (- z)) count) else None
  | None => None
  end.

Lemma oid_dec (a b : oid) : {a = b} + {a <> b}.
Proof. unfold oid. repeat (decide equality; try apply Byte.byte_eq_dec). Defined.

Lemma byte_of_hex_of_byte (b : Byte.byte) :
  byte_of_hex (hex_digit (Byte.to_N b / 16)) (hex_digit (Byte.to_N b mod 16))
  = Some b.
Proof. destruct b; reflexivity. Qed.

Lemma of_hex_to_hex (o : oid) : of_hex (to_hex o) = Some o.
Proof.
  destruct o as [[[[[[[[[[[b1 b2] b3] b4] b5] b6] b7] b8] b9] b10] b11] b12].
  cbn [to_hex hex_of_byte app of_hex].
  now rewrite !byte_of_hex_of_byte.
Qed.

Lemma is_valid_to_hex (o : oid) : is_valid (VStr (to_hex o)) = true.
Proof. unfold is_valid. now rewrite of_hex_to_hex. Qed.

Lemma new_oid_to_hex (o : oid) : new_oid (VStr (to_hex o)) = o.
Proof. unfold new_oid. now rewrite of_hex_to_hex. Qed.

Definition externals : Externals :=
  {| ObjectId := oid;
     oid_eq_dec := oid_dec;
     isValid := is_valid;
     newObjectId := new_oid;
     toHexString := to_hex;
     toHexString_isValid := is_valid_to_hex;
     newObjectId_toHexString := new_oid_to_hex;
     url_parses := parses;
     regex_valid := fun _ _ => true;
     regex_test := search;
     toLowerCase := List.map lower;
     limit_irregular := irregular |}.

(** The identifier written [s], for [s] of 24 hexadecimal digits. *)
Definition id_of (s : string) : oid := new_oid (VStr (lit s)).

End Sample.

(** ** A sample environment with anchored patterns

    As [Sample.externals], but for the patterns: a pattern is literal
    text, or ["^"] followed by literal text, which the database matches
    at the start of the string only; with the option [i], letters A-Z
    and a-z are identified. *)
Module Anchor.

Definition search (p o s : jsstr) : bool :=
  let fold := if jsstr_eqb o (lit "i") then List.map Sample.lower
              else fun x => x in
  match p with
  | 94%N :: p' => Sample.prefix_of (fold p') (fold s)
  | _ => Sample.infix_of (fold p) (fold s)
  end.

Definition externals : Externals :=
  {| ObjectId := Sample.oid;
     oid_eq_dec := Sample.oid_dec;
     isValid := Sample.is_valid;
     newObjectId := Sample.new_oid;
     toHexString := Sample.to_hex;
     toHexString_isValid := Sample.is_valid_to_hex;
     newObjectId_toHexString := Sample.new_oid_to_hex;
     url_parses := Sample.parses;
     regex_valid := fun _ _ => true;
     regex_test := search;
     toLowerCase := List.map Sample.lower;
     limit_irregular := Sample.irregular |}.

End Anchor.

(** * Properties *)

Section Properties.

Context {E : Externals}.

(** ** Strings *)

Lemma jsstr_eqb_eq (a b : jsstr) : jsstr_eqb a b = true <-> a = b.
Proof.
  unfold jsstr_eqb. destruct (list_eq_dec N.eq_dec a b); split; congruence.
Qed.

Lemma jsstr_eqb_neq (a b : jsstr) : jsstr_eqb a b = false <-> a <> b.
Proof.
  unfold jsstr_eqb. destruct (list_eq_dec N.eq_dec a b); split; congruence.
Qed.

(** ** Submitting an application *)

(** A field that passes the presence check: a string that is not empty
    once trimmed. *)
Definition nonblank (v : value) : bool :=
  match v with
  | VStr s => negb (jsstr_eqb (trim s) [])
  | _ => false
  end.

(** The name, email, resume link and cover note pass validation: all
    four are present, the email has the shape of the pattern and the
    resume link parses as a URL. *)
Definition fields_valid (b : application_body) : bool :=
  nonblank (b_name b) && nonblank (b_email b) && nonblank (b_resume_link b)
  && nonblank (b_cover_note b)
  && match b_email b with VStr s => emailRegex_test s | _ => false end
  && match b_resume_link b with VStr s => url_parses s | _ => false end.

Lemma nonblank_inv (v : value) :
  nonblank v = true ->
  exists s, v = VStr s /\ not_trim v = Next false /\ str_of v = Next s.
Proof.
  destruct v as [| | |n|s| |]; cbn; try discriminate.
  intros H. exists s. apply negb_true_iff in H. now rewrite H.
Qed.

(** A request that passes validation gets as far as the check of the job
    reference: the handler answers from [isValid] and [findOne]. *)
Lemma submit_reaches_job_check now fresh b st :
  truthy (b_job_id b) = true ->
  fields_valid b = true ->
  isValid (b_job_id b) = false
  /\ submit_application now fresh b st
     = (res_status 400 (PError (lit "Invalid job ID")), st)
  \/ isValid (b_job_id b) = true
  /\ findOne (newObjectId (b_job_id b)) (jobsCollection st) = None
  /\ submit_application now fresh b st
     = (res_status 404 (PError (lit "Job not found")), st)
  \/ isValid (b_job_id b) = true
  /\ (exists j, findOne (newObjectId (b_job_id b)) (jobsCollection st) = Some j)
  /\ (status (fst (submit_application now fresh b st)) = 201
      \/ status (fst (submit_application now fresh b st)) = 500).
Proof.
  intros Hid Hv. unfold fields_valid in Hv.
  repeat (apply andb_prop in Hv; destruct Hv as [Hv ?]).
  destruct (nonblank_inv _ Hv) as (nm & Enm & Tnm & Snm).
  destruct (nonblank_inv _ H3) as (em & Eem & Tem & Sem).
  destruct (nonblank_inv _ H2) as (rl & Erl & Trl & Srl).
  destruct (nonblank_inv _ H1) as (cn & Ecn & Tcn & Scn).
  rewrite Eem in H0. rewrite Erl in H.
  unfold submit_application.
  rewrite Hid, Tnm, Tem, Trl, Tcn, Sem, Srl, Snm, Scn.
  cbn [negb orelse bind]. rewrite H0, H. cbn [negb].
  destruct (isValid (b_job_id b)); cbn [negb try_catch].
  - right.
    destruct (findOne (newObjectId (b_job_id b)) (jobsCollection st)) as [j|].
    + right. repeat split; [now exists j|].
      destruct (insertOneApplication _ _); cbn; auto.
    + left. auto.
  - left. auto.
Qed.

(** The identifier [id] is the [_id] of no document of the collection. *)
Definition unused (id : ObjectId) (c : list job) : Prop :=
  forall j, In j c -> _id j <> id.

Lemma findOne_None (id : ObjectId) (c : list job) :
  unused id c -> findOne id c = None.
Proof.
  intros H. unfold findOne.
  destruct (find (has_id id) c) as [j|] eqn:F; [|reflexivity].
  apply find_some in F. destruct F as [Hin Hid].
  unfold has_id in Hid. destruct (oid_eq_dec (_id j) id); [|discriminate].
  now destruct (H j Hin).
Qed.

Lemma truthy_VStr (s : jsstr) : s <> [] -> truthy (VStr s) = true.
Proof. intros H. cbn. apply negb_true_iff. now apply jsstr_eqb_neq. Qed.

(** C1, as the handler has it: for every application whose job reference
    is a non-empty string that is not a valid object identifier, and
    whose name, email, resume link and cover note pass validation, the
    handler answers 400 with the error [Invalid job ID] (not 404), and
    writes nothing. *)
Theorem submit_invalid_job_id_400 now fresh b st s :
  b_job_id b = VStr s ->
  s <> [] ->
  isValid (VStr s) = false ->
  fields_valid b = true ->
  submit_application now fresh b st
  = (res_status 400 (PError (lit "Invalid job ID")), st).
Proof.
  intros Ej Hs Hinv Hv.
  destruct (@submit_reaches_job_check now fresh b st) as [H|[H|H]];
    rewrite ?Ej; auto using truthy_VStr.
  - rewrite Ej in H. tauto.
  - rewrite Ej in H. destruct H as [H _]. congruence.
  - rewrite Ej in H. destruct H as [H _]. congruence.
Qed.

(** C5: for every application whose job reference is given, is a valid
    identifier and is the [_id] of no document of the jobs collection,
    and whose other fields pass validation, the handler answers 404 with
    the error [Job not found], and writes nothing. *)
Theorem submit_unknown_job_404 now fresh b st :
  truthy (b_job_id b) = true ->
  isValid (b_job_id b) = true ->
  unused (newObjectId (b_job_id b)) (jobsCollection st) ->
  fields_valid b = true ->
  submit_application now fresh b st
  = (res_status 404 (PError (lit "Job not found")), st).
Proof.
  intros Ht Hval Hno Hv.
  apply findOne_None in Hno.
  destruct (@submit_reaches_job_check now fresh b st Ht Hv) as [H|[H|H]].
  - destruct H as [H _]. congruence.
  - tauto.
  - destruct H as (_ & [j Hj] & _). congruence.
Qed.

(** *** The email pattern on the untrimmed email *)

(** The string starts or ends with a white-space character. *)
Definition outer_space (s : jsstr) : bool :=
  match s with c :: _ => is_space c | [] => false end
  || match rev s with c :: _ => is_space c | [] => false end.

Lemma span_plain_app (s : jsstr) :
  s = fst (span_plain s) ++ snd (span_plain s).
Proof.
  induction s as [|c s IH]; cbn; [reflexivity|].
  destruct (plain c); [|reflexivity].
  destruct (span_plain s) as [a r]. cbn in *. now f_equal.
Qed.

Lemma span_plain_all (s : jsstr) : forallb plain (fst (span_plain s)) = true.
Proof.
  induction s as [|c s IH]; cbn; [reflexivity|].
  destruct (plain c) eqn:P; [|reflexivity].
  destruct (span_plain s) as [a r]. cbn in *. now rewrite P.
Qed.

Lemma is_space_not_plain (c : N) : is_space c = true -> plain c = false.
Proof. intros H. unfold plain. now rewrite H. Qed.

Lemma emailRegex_outer_space (s : jsstr) :
  outer_space s = true -> emailRegex_test s = false.
Proof.
  unfold outer_space. intros H. apply orb_prop in H. destruct H as [H|H].
  - destruct s as [|c s]; [discriminate|].
    unfold emailRegex_test. cbn [span_plain].
    now rewrite (is_space_not_plain _ H).
  - destruct (emailRegex_test s) eqn:T; [exfalso|reflexivity].
    unfold emailRegex_test in T.
    pose proof (span_plain_app s) as Happ.
    destruct (span_plain s) as [a r]. cbn [fst snd] in Happ.
    destruct a as [|a0 a]; [discriminate|].
    destruct r as [|at_ d]; [discriminate|].
    destruct at_ as [|q]; [discriminate|].
    destruct (Pos.eq_dec q 64) as [->|Nq].
    2:{ do 7 (destruct q as [q|q|]; try discriminate T; try now destruct Nq). }
    apply andb_prop in T. destruct T as [Hall Hdot].
    destruct d as [|d0 d]; [discriminate|].
    assert (Hlast : exists x pre, rev s = x :: pre /\ In x (d0 :: d)).
    { destruct (rev (d0 :: d)) as [|x pre] eqn:R.
      - apply (f_equal (@List.length N)) in R. rewrite length_rev in R.
        discriminate.
      - exists x, (pre ++ rev ((a0 :: a) ++ [64%N])). split.
        + subst s.
          change ((a0 :: a) ++ 64%N :: d0 :: d)
            with ((a0 :: a) ++ [64%N] ++ d0 :: d).
          now rewrite app_assoc, rev_app_distr, R.
        + apply in_rev. rewrite R. now left. }
    destruct Hlast as (x & pre & Hr & Hin).
    rewrite Hr in H.
    rewrite forallb_forall in Hall. specialize (Hall x Hin).
    rewrite (is_space_not_plain _ H) in Hall. discriminate.
Qed.

Lemma span_plain_stop (a r : jsstr) (x : N) :
  forallb plain a = true -> plain x = false ->
  span_plain (a ++ x :: r) = (a, x :: r).
Proof.
  intros Ha Hx. induction a as [|c a IH]; cbn.
  - now rewrite Hx.
  - cbn in Ha. apply andb_prop in Ha. destruct Ha as [Hc Ha].
    now rewrite Hc, (IH Ha).
Qed.

Lemma dot_then_more_spec (r : jsstr) :
  dot_then_more r = true <-> exists b c, r = b ++ 46%N :: c /\ c <> [].
Proof.
  split.
  - induction r as [|x r IH]; [discriminate|].
    cbn [dot_then_more]. destruct r as [|y r]; [discriminate|].
    intros H. apply orb_prop in H. destruct H as [H|H].
    + apply N.eqb_eq in H. subst x. exists [], (y :: r). now split.
    + destruct (IH H) as (b & c & Hr & Hc).
      exists (x :: b), c. cbn. now rewrite Hr.
  - intros (b & c & -> & Hc). induction b as [|x b IH].
    + destruct c as [|y c]; [now destruct Hc|]. reflexivity.
    + cbn [app dot_then_more].
      destruct (b ++ 46%N :: c) as [|y t] eqn:Eb; [now destruct b|].
      now rewrite IH, orb_true_r.
Qed.

(** The embedding of the pattern agrees with its reading: one or more
    plain characters, ["@"], one or more plain characters, ["."], one or
    more plain characters, and nothing else. *)
Lemma emailRegex_test_spec (s : jsstr) :
  emailRegex_test s = true
  <-> exists a b c,
        s = a ++ 64%N :: b ++ 46%N :: c
        /\ a <> [] /\ b <> [] /\ c <> []
        /\ forallb plain a = true /\ forallb plain b = true
        /\ forallb plain c = true.
Proof.
  split.
  - intros T. unfold emailRegex_test in T.
    pose proof (span_plain_app s) as Happ.
    pose proof (span_plain_all s) as Hall.
    destruct (span_plain s) as [a r]. cbn [fst snd] in *.
    destruct a as [|a0 a]; [discriminate|].
    destruct r as [|at_ d]; [discriminate|].
    destruct at_ as [|q]; [discriminate|].
    destruct (Pos.eq_dec q 64) as [->|Nq].
    2:{ do 7 (destruct q as [q|q|]; try discriminate T; try now destruct Nq). }
    apply andb_prop in T. destruct T as [Hd Hdot].
    destruct d as [|d0 d]; [discriminate|].
    apply dot_then_more_spec in Hdot. destruct Hdot as (b & c & -> & Hc).
    exists (a0 :: a), (d0 :: b), c.
    change (d0 :: b ++ 46%N :: c) with ((d0 :: b) ++ 46%N :: c) in Hd.
    rewrite forallb_app in Hd. apply andb_prop in Hd. destruct Hd as [Hb Hc'].
    cbn [forallb] in Hc'. apply andb_prop in Hc'.
    repeat split; easy.
  - intros (a & b & c & -> & Ha & Hb & Hc & Pa & Pb & Pc).
    unfold emailRegex_test. rewrite (@span_plain_stop a _ 64%N Pa eq_refl).
    destruct a as [|a0 a]; [now destruct Ha|].
    destruct b as [|b0 b]; [now destruct Hb|].
    rewrite forallb_app, Pb. cbn [forallb andb app]. rewrite Pc.
    cbn [andb]. change (plain 46) with true. cbn [andb].
    apply dot_then_more_spec. now exists b, c.
Qed.

(** C9, as the handler has it: for every application that passes the
    presence check (a truthy job reference; name, email, resume link and
    cover note strings that are not empty once trimmed) and whose email
    starts or ends with white space, the handler answers 400 with the
    error [Invalid email format], whatever the trimmed email is: the
    pattern is tested on the untrimmed string. *)
Theorem submit_untrimmed_email_400 now fresh b st e :
  truthy (b_job_id b) = true ->
  nonblank (b_name b) = true ->
  b_email b = VStr e ->
  trim e <> [] ->
  nonblank (b_resume_link b) = true ->
  nonblank (b_cover_note b) = true ->
  outer_space e = true ->
  submit_application now fresh b st
  = (res_status 400 (PError (lit "Invalid email format")), st).
Proof.
  intros Hid Hn Ee He Hr Hc Hsp.
  destruct (nonblank_inv _ Hn) as (nm & _ & Tnm & _).
  destruct (nonblank_inv _ Hr) as (rl & _ & Trl & _).
  destruct (nonblank_inv _ Hc) as (cn & _ & Tcn & _).
  apply jsstr_eqb_neq in He.
  unfold submit_application.
  rewrite Hid, Tnm, Trl, Tcn, Ee. cbn [not_trim str_of negb orelse bind].
  rewrite He. cbn [bind].
  now rewrite (emailRegex_outer_space _ Hsp).
Qed.

(** ** Creating a job *)

(** The required fields of a body, with the names the handler reports. *)
Definition required (b : job_body) : list (string * value) :=
  [("title", b_title b); ("company", b_company b);
   ("location", b_location b); ("category", b_category b);
   ("description", b_description b)]%string.

(** A field is missing: absent, or a string that is empty once trimmed. *)
Definition is_missing (v : value) : bool :=
  match v with
  | VUndefined | VNull => true
  | VStr s => jsstr_eqb (trim s) []
  | _ => false
  end.

Definition str_or_absent (v : value) : bool :=
  match v with
  | VUndefined | VNull | VStr _ => true
  | _ => false
  end.

Definition missing_names (b : job_body) : list jsstr :=
  List.map (fun nv => lit (fst nv))
    (filter (fun nv => is_missing (snd nv)) (required b)).

(** [needle] occurs in [hay]. *)
Definition occurs_in (needle hay : jsstr) : Prop :=
  exists pre post, hay = pre ++ needle ++ post.

Lemma push_missing_typed (v : value) (name : string) (m : list jsstr) :
  str_or_absent v = true ->
  push_missing v name m = Next (if is_missing v then m ++ [lit name] else m).
Proof. destruct v; cbn; try discriminate; reflexivity. Qed.

Lemma join_occurs (sep x : jsstr) (l : list jsstr) :
  In x l -> occurs_in x (join sep l).
Proof.
  induction l as [|y l IH]; [contradiction|].
  intros [->|Hin].
  - destruct l as [|z l].
    + exists [], []. cbn. now rewrite app_nil_r.
    + exists [], (sep ++ join sep (z :: l)). reflexivity.
  - destruct l as [|z l]; [contradiction|].
    destruct (IH Hin) as (pre & post & Hj).
    exists (y ++ sep ++ pre), post.
    change (join sep (y :: z :: l)) with (y ++ sep ++ join sep (z :: l)).
    rewrite Hj. now rewrite <- !app_assoc.
Qed.

Lemma create_job_missing now fresh b st :
  forallb (fun nv => str_or_absent (snd nv)) (required b) = true ->
  missing_names b <> [] ->
  create_job now fresh b st
  = (res_status 400
       (PError (lit "Missing required fields: "
                ++ join (lit ", ") (missing_names b))), st).
Proof.
  intros Ht. cbn [required forallb snd] in Ht.
  rewrite !andb_true_iff in Ht. destruct Ht as (H1 & H2 & H3 & H4 & H5 & _).
  unfold create_job, missing_names, required.
  rewrite (push_missing_typed _ _ _ H1). cbn [bind].
  rewrite (push_missing_typed _ _ _ H2). cbn [bind].
  rewrite (push_missing_typed _ _ _ H3). cbn [bind].
  rewrite (push_missing_typed _ _ _ H4). cbn [bind].
  rewrite (push_missing_typed _ _ _ H5). cbn [bind].
  cbn [filter snd fst List.map].
  destruct (is_missing (b_title b)), (is_missing (b_company b)),
    (is_missing (b_location b)), (is_missing (b_category b)),
    (is_missing (b_description b)); cbn [app List.map fst];
    intros Hm; try reflexivity.
  now destruct Hm.
Qed.

(** C3, as the handler has it: for every job-creation request whose
    required fields are each absent or a string, and of which at least
    one is absent or empty once trimmed, the handler answers 400, writes
    nothing, and its error message is [Missing required fields: ]
    followed by the names of all the missing fields, in the order title,
    company, location, category, description, separated by commas: each
    missing field is named in it. *)
Theorem create_job_missing_fields_400 now fresh b st :
  forallb (fun nv => str_or_absent (snd nv)) (required b) = true ->
  existsb (fun nv => is_missing (snd nv)) (required b) = true ->
  exists message,
    create_job now fresh b st = (res_status 400 (PError message), st)
    /\ message = lit "Missing required fields: "
                 ++ join (lit ", ") (missing_names b)
    /\ forall name v, In (name, v) (required b) -> is_missing v = true ->
         occurs_in (lit name) message.
Proof.
  intros Ht Hm.
  assert (Hne : missing_names b <> []).
  { apply existsb_exists in Hm. destruct Hm as (nv & Hin & Hmiss).
    intros Hnil.
    assert (Hf : In (lit (fst nv)) (missing_names b)).
    { unfold missing_names.
      apply (in_map (fun nv => lit (fst nv))), filter_In. auto. }
    rewrite Hnil in Hf. contradiction. }
  eexists. split; [now apply create_job_missing|]. split; [reflexivity|].
  intros name v Hin Hmiss.
  assert (Hf : In (lit name) (missing_names b)).
  { unfold missing_names.
    apply (in_map (fun nv => lit (fst nv)) _ (name, v)), filter_In. auto. }
  destruct (join_occurs (lit ", ") _ _ Hf) as (pre & post & Hj).
  exists (lit "Missing required fields: " ++ pre), post.
  rewrite Hj. now rewrite <- app_assoc.
Qed.

Lemma push_missing_throws (v : value) (name : string) (m : list jsstr) :
  str_or_absent v = false -> push_missing v name m = Throw.
Proof. destruct v; cbn; try discriminate; reflexivity. Qed.

(** A required field that is neither absent nor a string makes the
    handler throw: all five checks run before any answer, and the
    request is answered 500. *)
Lemma create_job_not_a_string_500 now fresh b st :
  forallb (fun nv => str_or_absent (snd nv)) (required b) = false ->
  create_job now fresh b st
  = (res_status 500 (PError (lit "Failed to create job")), st).
Proof.
  cbn [required forallb snd]. intros H. unfold create_job.
  destruct (str_or_absent (b_title b)) eqn:T1;
    [rewrite (push_missing_typed _ _ _ T1)
    |now rewrite (push_missing_throws _ _ _ T1)].
  cbn [bind].
  destruct (str_or_absent (b_company b)) eqn:T2;
    [rewrite (push_missing_typed _ _ _ T2)
    |now rewrite (push_missing_throws _ _ _ T2)].
  cbn [bind].
  destruct (str_or_absent (b_location b)) eqn:T3;
    [rewrite (push_missing_typed _ _ _ T3)
    |now rewrite (push_missing_throws _ _ _ T3)].
  cbn [bind].
  destruct (str_or_absent (b_category b)) eqn:T4;
    [rewrite (push_missing_typed _ _ _ T4)
    |now rewrite (push_missing_throws _ _ _ T4)].
  cbn [bind].
  destruct (str_or_absent (b_description b)) eqn:T5;
    [discriminate H|now rewrite (push_missing_throws _ _ _ T5)].
Qed.

(** The five required fields are strings that are not empty once
    trimmed: the request passes validation. *)
Definition required_present (b : job_body) : bool :=
  forallb (fun nv => nonblank (snd nv)) (required b).

Lemma existsb_has_id_unused (id : ObjectId) (c : list job) :
  unused id c -> existsb (has_id id) c = false.
Proof.
  intros H. destruct (existsb (has_id id) c) eqn:X; [|reflexivity].
  apply existsb_exists in X. destruct X as (j & Hin & Hj).
  unfold has_id in Hj. destruct (oid_eq_dec (_id j) id); [|discriminate].
  now destruct (H j Hin).
Qed.

Lemma nonblank_trim_of (v : value) :
  nonblank v = true ->
  exists s, v = VStr s /\ trim s <> [] /\ not_trim v = Next false
            /\ trim_of v = Next (VStr (trim s)).
Proof.
  destruct v as [| | |n|s| |]; cbn; try discriminate.
  intros H. exists s. apply negb_true_iff in H. rewrite H.
  apply jsstr_eqb_neq in H. auto.
Qed.

(** What the handler does with a request that passes validation, when
    the insertion goes through. *)
Lemma create_job_valid now fresh b st :
  required_present b = true ->
  unused fresh (jobsCollection st) ->
  exists t c l g d,
    b_title b = VStr t /\ b_company b = VStr c /\ b_location b = VStr l
    /\ b_category b = VStr g /\ b_description b = VStr d
    /\ let newJob :=
         {| _id := fresh;
            title := VStr (trim t);
            company := VStr (trim c);
            location := VStr (trim l);
            category := VStr (trim g);
            categories := VUndefined;
            description := VStr (trim d);
            type := js_or (b_type b) (VStr (lit "Full Time"));
            featured := js_or (b_featured b) (VBool false);
            logo := js_or (b_logo b) VNull;
            created_at := now |} in
       create_job now fresh b st
       = (res_status 201
            (PJobCreated (lit "Job created successfully") fresh newJob),
          {| jobsCollection := jobsCollection st ++ [newJob];
             applicationsCollection := applicationsCollection st |}).
Proof.
  intros Hp Hu. unfold required_present in Hp.
  cbn [required forallb snd] in Hp.
  rewrite !andb_true_iff in Hp. destruct Hp as (H1 & H2 & H3 & H4 & H5 & _).
  destruct (nonblank_trim_of _ H1) as (t & Et & _ & Nt & Tt).
  destruct (nonblank_trim_of _ H2) as (c & Ec & _ & Nc & Tc).
  destruct (nonblank_trim_of _ H3) as (l & El & _ & Nl & Tl).
  destruct (nonblank_trim_of _ H4) as (g & Eg & _ & Ng & Tg).
  destruct (nonblank_trim_of _ H5) as (d & Ed & _ & Nd & Td).
  exists t, c, l, g, d. repeat (split; [assumption|]).
  intros newJob. unfold create_job, push_missing.
  rewrite Nt, Nc, Nl, Ng, Nd, Tt, Tc, Tl, Tg, Td. cbn [bind].
  unfold insertOne. cbn [_id].
  now rewrite (existsb_has_id_unused Hu).
Qed.

Lemma findOne_last (j : job) (c : list job) :
  unused (_id j) c -> findOne (_id j) (c ++ [j]) = Some j.
Proof.
  intros Hu. unfold findOne. induction c as [|k c IH]; cbn.
  - unfold has_id. now destruct (oid_eq_dec (_id j) (_id j)).
  - unfold has_id at 1. destruct (oid_eq_dec (_id k) (_id j)) as [e|_].
    + destruct (Hu k (or_introl eq_refl) e).
    + apply IH. intros x Hx. apply Hu. now right.
Qed.

(** C4: for every job-creation request whose five required fields are
    not empty once trimmed, when the insertion does not fail (the
    identifier the driver generated is not yet in the collection), the
    handler answers 201 with the new identifier and the created job, and
    a get-job request with that identifier, on the collections as the
    creation left them, answers 200 with the created job. *)
Theorem create_job_then_get_job now fresh b st :
  required_present b = true ->
  unused fresh (jobsCollection st) ->
  exists newJob st',
    create_job now fresh b st
    = (res_status 201
         (PJobCreated (lit "Job created successfully") fresh newJob), st')
    /\ _id newJob = fresh
    /\ In newJob (jobsCollection st')
    /\ get_job (toHexString fresh) st' = (res_json (PJob newJob), st').
Proof.
  intros Hp Hu.
  destruct (create_job_valid now b st Hp Hu)
    as (t & c & l & g & d & _ & _ & _ & _ & _ & Hc).
  cbv zeta in Hc. eexists. eexists. split; [exact Hc|].
  split; [reflexivity|]. split; [apply in_or_app; right; now left|].
  unfold get_job. rewrite toHexString_isValid, newObjectId_toHexString.
  cbn [negb jobsCollection].
  match goal with |- context [findOne fresh (_ ++ [?j])] =>
    change fresh with (_id j) at 1; rewrite (@findOne_last j)
  end; [reflexivity|exact Hu].
Qed.

(** C10: for every job-creation request that passes validation, when the
    insertion does not fail, the collection gains one document, whose
    [featured] field is the value of the request when that value is
    truthy (whatever its type) and the boolean [false] otherwise, and
    whose [type] field is the value of the request when that value is
    truthy and the string [Full Time] otherwise. *)
Theorem create_job_featured_and_type now fresh b st :
  required_present b = true ->
  unused fresh (jobsCollection st) ->
  exists stored,
    jobsCollection (snd (create_job now fresh b st))
    = jobsCollection st ++ [stored]
    /\ _id stored = fresh
    /\ featured stored
       = (if truthy (b_featured b) then b_featured b else VBool false)
    /\ type stored
       = (if truthy (b_type b) then b_type b else VStr (lit "Full Time")).
Proof.
  intros Hp Hu.
  destruct (create_job_valid now b st Hp Hu)
    as (t & c & l & g & d & _ & _ & _ & _ & _ & Hc).
  cbv zeta in Hc. rewrite Hc. eexists. split; [reflexivity|].
  repeat split.
Qed.

(** ** Deleting a job *)

(** The database keeps [_id] unique within a collection. *)
Definition ids_unique (c : list job) : Prop := NoDup (List.map _id c).

Lemma deleteOne_unused (id : ObjectId) (c : list job) :
  unused id c -> deleteOne id c = (c, 0).
Proof.
  induction c as [|k c IH]; intros Hu; cbn; [reflexivity|].
  unfold has_id. destruct (oid_eq_dec (_id k) id) as [e|_].
  - destruct (Hu k (or_introl eq_refl) e).
  - rewrite IH; [reflexivity|]. intros x Hx. apply Hu. now right.
Qed.

Lemma deleteOne_present (j : job) (c : list job) :
  ids_unique c -> In j c ->
  exists c',
    deleteOne (_id j) c = (c', 1)
    /\ (forall k, In k c' <-> In k c /\ k <> j)
    /\ unused (_id j) c'
    /\ ids_unique c'.
Proof.
  unfold ids_unique.
  induction c as [|k c IH]; intros Hnd Hin; [contradiction|].
  cbn [List.map] in Hnd. apply NoDup_cons_iff in Hnd.
  destruct Hnd as [Hk Hnd]. cbn [deleteOne]. unfold has_id.
  destruct (oid_eq_dec (_id k) (_id j)) as [e|ne].
  - assert (k = j) as ->.
    { destruct Hin as [|Hin]; [assumption|].
      destruct Hk. rewrite e. now apply in_map. }
    exists c. split; [reflexivity|].
    assert (Hu : unused (_id j) c).
    { intros x Hx Ex. apply Hk. rewrite <- Ex. now apply in_map. }
    repeat split; auto.
    + now right.
    + intros ->. now apply (Hu j).
    + intros [[->|Hx] Hne]; [now destruct Hne|assumption].
  - destruct Hin as [->|Hin]; [now destruct ne|].
    destruct (IH Hnd Hin) as (c' & Hd & Hiff & Hu & Hnd').
    exists (k :: c'). rewrite Hd. split; [reflexivity|]. repeat split.
    + destruct H as [->|Hx]; [now left|right; now apply Hiff].
    + destruct H as [->|Hx]; [congruence|now apply Hiff].
    + intros [[->|Hx] Hne]; [now left|right; apply Hiff; auto].
    + intros x [->|Hx]; [assumption|now apply Hu].
    + cbn [List.map]. constructor; [|assumption].
      intros Hm. apply in_map_iff in Hm. destruct Hm as (x & Ex & Hx).
      apply Hiff in Hx. apply Hk. rewrite <- Ex. apply in_map. tauto.
Qed.

(** C6: for every job of the jobs collection, the delete request with
    its identifier answers 200 and leaves the collection without that
    job and with every other job; the same request repeated at once
    answers 404 and leaves the collection as the first request left
    it. *)
Theorem delete_job_twice st j :
  ids_unique (jobsCollection st) ->
  In j (jobsCollection st) ->
  exists st',
    delete_job (toHexString (_id j)) st
    = (res_json (PMessage (lit "Job deleted successfully")), st')
    /\ (forall k, In k (jobsCollection st')
                  <-> In k (jobsCollection st) /\ k <> j)
    /\ applicationsCollection st' = applicationsCollection st
    /\ delete_job (toHexString (_id j)) st'
       = (res_status 404 (PError (lit "Job not found")), st').
Proof.
  intros Hnd Hin.
  destruct (@deleteOne_present j _ Hnd Hin) as (c' & Hd & Hiff & Hu & _).
  exists {| jobsCollection := c';
            applicationsCollection := applicationsCollection st |}.
  unfold delete_job.
  rewrite toHexString_isValid, newObjectId_toHexString. cbn [negb].
  rewrite Hd. cbn [Nat.eqb try_catch jobsCollection applicationsCollection].
  repeat split; try apply Hiff; auto.
  now rewrite (@deleteOne_unused _ _ Hu).
Qed.

(** The handlers keep identifiers unique. *)
Lemma create_job_ids_unique now fresh b st :
  ids_unique (jobsCollection st) ->
  ids_unique (jobsCollection (snd (create_job now fresh b st))).
Proof.
  intros Hnd. unfold create_job.
  repeat match goal with
  | |- context [push_missing ?v ?n ?m] =>
      destruct (push_missing v n m); cbn [bind try_catch snd]; auto
  | |- context [trim_of ?v] =>
      destruct (trim_of v); cbn [bind try_catch snd]; auto
  | |- context [match ?l with [] => _ | _ :: _ => _ end] =>
      destruct l; cbn [bind try_catch snd]; auto
  end.
  unfold insertOne. cbn [_id].
  destruct (existsb (has_id fresh) (jobsCollection st)) eqn:X;
    cbn [try_catch snd jobsCollection]; auto.
  unfold ids_unique. rewrite map_app. cbn [List.map _id].
  apply NoDup_app; auto.
  - constructor; [easy|constructor].
  - intros x Hx [<-|[]]. apply in_map_iff in Hx.
    destruct Hx as (k & Ek & Hk).
    assert (existsb (has_id (_id k)) (jobsCollection st) = true).
    { apply existsb_exists. exists k. split; [assumption|].
      unfold has_id. now destruct (oid_eq_dec (_id k) (_id k)). }
    congruence.
Qed.

Lemma delete_job_ids_unique id st :
  ids_unique (jobsCollection st) ->
  ids_unique (jobsCollection (snd (delete_job id st))).
Proof.
  intros Hnd. unfold delete_job.
  destruct (isValid (VStr id)); cbn [negb try_catch snd]; auto.
  set (o := newObjectId (VStr id)).
  assert (H : ids_unique (fst (deleteOne o (jobsCollection st)))).
  { clear -Hnd. unfold ids_unique in *.
    induction (jobsCollection st) as [|k c IH]; cbn; auto.
    cbn [List.map] in Hnd. apply NoDup_cons_iff in Hnd. destruct Hnd as [Hk Hnd].
    destruct (has_id o k); cbn [fst]; auto.
    specialize (IH Hnd).
    assert (Hsub : forall x, In x (fst (deleteOne o c)) -> In x c).
    { clear. induction c as [|y c IHc]; cbn; auto.
      destruct (has_id o y); cbn; [now right|].
      destruct (deleteOne o c) as [r n]. cbn in *. intuition. }
    destruct (deleteOne o c) as [r n]. cbn [fst List.map] in *.
    constructor; auto.
    intros Hm. apply in_map_iff in Hm. destruct Hm as (x & Ex & Hx).
    apply Hk. rewrite <- Ex. apply in_map. auto. }
  destruct (deleteOne o (jobsCollection st)) as [r n]. cbn [fst] in H.
  destruct (Nat.eqb n 0); cbn [try_catch snd jobsCollection]; auto.
Qed.

Lemma submit_application_jobs now fresh b st :
  jobsCollection (snd (submit_application now fresh b st)) = jobsCollection st.
Proof.
  unfold submit_application.
  repeat match goal with
  | |- context [orelse ?a ?b] => destruct (orelse a b) as [[|]| |]
  | |- context [str_of ?v] => destruct (str_of v)
  | |- context [if ?c then _ else _] => destruct c
  | |- context [findOne ?i ?c] => destruct (findOne i c)
  | |- context [insertOneApplication ?a ?c] =>
      destruct (insertOneApplication a c)
  | _ => progress cbn [bind try_catch snd jobsCollection]
  end; reflexivity.
Qed.

(** Identifiers stay unique in the jobs collection, whatever requests
    the server handles. *)
Lemma serve_ids_unique rs st :
  ids_unique (jobsCollection st) ->
  ids_unique (jobsCollection (serve rs st)).
Proof.
  unfold serve. revert st.
  induction rs as [|r rs IH]; intros st Hu; cbn [fold_left]; [assumption|].
  apply IH. destruct r; cbn [handle].
  - unfold list_jobs.
    destruct (find_query _ _) as [found|]; cbn [try_catch snd]; auto.
    destruct (cursor_limit _ _); cbn [try_catch snd]; auto.
  - unfold get_job. destruct (isValid (VStr id)); cbn; auto.
    destruct (findOne _ _); cbn; auto.
  - now apply create_job_ids_unique.
  - now apply delete_job_ids_unique.
  - now rewrite submit_application_jobs.
Qed.

(** ** Listing jobs *)

(** *** The filter *)

(** The keyword condition: the keyword matches, letter case ignored, in
    the title, the company or the description. *)
Definition keyword_group (k : jsstr) (d : job) : bool :=
  regex_on k i_ (title d) || regex_on k i_ (company d)
  || regex_on k i_ (description d).

(** The category condition: the category matches, letter case ignored,
    in the category field, or in an element of the categories array. *)
Definition category_group (c : jsstr) (d : job) : bool :=
  regex_on c i_ (category d) || elemMatch_on c i_ (categories d).

(** The conditions of the other two parameters that filter. *)
Definition location_filter (p : jobs_params) (d : job) : bool :=
  match supplied (p_location p) with
  | Some l => regex_on l i_ (location d)
  | None => true
  end.

Definition wants_featured (p : jobs_params) : bool :=
  match p_featured p with
  | Some f => jsstr_eqb f (lit "true")
  | None => false
  end.

Definition featured_filter (p : jobs_params) (d : job) : bool :=
  if wants_featured p then equals_bool true (featured d) else true.

Lemma build_query_both p k c :
  supplied (keyword p) = Some k ->
  supplied (p_category p) = Some c ->
  build_query p
  = {| or_ := None;
       loc_ := option_map (fun l => Regex location_ l i_)
                 (supplied (p_location p));
       and_ := Some [[Regex title_ k i_; Regex company_ k i_;
                      Regex description_ k i_];
                     [Regex category_ c i_; ElemMatchRegex categories_ c i_]];
       featured_ := if wants_featured p then Some true else None |}.
Proof.
  intros Hk Hc. unfold build_query, wants_featured. rewrite Hk, Hc.
  destruct (supplied (p_location p));
    destruct (match p_featured p with
              | Some f => jsstr_eqb f (lit "true")
              | None => false
              end); reflexivity.
Qed.

(** *** The groups as case-insensitive substring search *)

(** [needle] occurs in [hay], letters A-Z and a-z identified. *)
Definition ci_substring (needle hay : jsstr) : bool :=
  Sample.infix_of (List.map Sample.lower needle) (List.map Sample.lower hay).

(** The text is a case-insensitive substring of the value of a field: of
    a string, or of a string of an array. *)
Definition substring_in (text : jsstr) (v : value) : bool :=
  let within x := match x with VStr s => ci_substring text s | _ => false end in
  match v with
  | VArr l => existsb within l
  | _ => within v
  end.

(** The text is a case-insensitive substring of an element of the set. *)
Definition substring_in_set (text : jsstr) (v : value) : bool :=
  match v with
  | VArr l =>
      existsb (fun x => match x with
                        | VStr s => ci_substring text s
                        | _ => false
                        end) l
  | _ => false
  end.

(** The keyword is a case-insensitive substring of title, company or
    description. *)
Definition substring_keyword_group (k : jsstr) (d : job) : bool :=
  substring_in k (title d) || substring_in k (company d)
  || substring_in k (description d).

(** The category is a case-insensitive substring of the category field,
    or of an element of the categories set. *)
Definition substring_category_group (c : jsstr) (d : job) : bool :=
  substring_in c (category d) || substring_in_set c (categories d).

(** The database reads the pattern as literal text: to match it is to
    contain it, letter case ignored. *)
Definition literal_pattern (r : jsstr) : Prop :=
  forall s, regex_test r i_ s = ci_substring r s.

Lemma regex_on_literal (r : jsstr) (v : value) :
  literal_pattern r -> regex_on r i_ v = substring_in r v.
Proof.
  intros H. destruct v as [| | |n|s|l|l]; cbn; try reflexivity; [apply H|].
  induction l as [|x l IH]; [reflexivity|]. cbn [existsb]. rewrite IH.
  f_equal. destruct x; cbn; try reflexivity. apply H.
Qed.

Lemma elemMatch_on_literal (r : jsstr) (v : value) :
  literal_pattern r -> elemMatch_on r i_ v = substring_in_set r v.
Proof.
  intros H. destruct v as [| | |n|s|l|l]; cbn; try reflexivity.
  induction l as [|x l IH]; [reflexivity|]. cbn [existsb]. rewrite IH.
  f_equal. destruct x; cbn; try reflexivity. apply H.
Qed.

(** C2, as the handler has it: for every list-jobs request with both a
    keyword and a category, the filter has no ["$or"] key and has under
    ["$and"] the keyword conditions and the category conditions, each as
    one ["$or"], with the parameter itself as the pattern of a
    case-insensitive regular expression.  The filter matches a document
    exactly when the keyword group holds (the keyword, as such a
    pattern, matches title, company or description) and the category
    group holds (the category, as such a pattern, matches the category
    field or an element of the categories array), and the location and
    featured conditions when these parameters are given: neither group
    replaces the other.  For a keyword and a category that the database
    reads as literal text, the groups are case-insensitive substring
    search, as the specification has them. *)
Theorem build_query_keyword_and_category p k c :
  supplied (keyword p) = Some k ->
  supplied (p_category p) = Some c ->
  or_ (build_query p) = None
  /\ and_ (build_query p)
     = Some [[Regex title_ k i_; Regex company_ k i_;
              Regex description_ k i_];
             [Regex category_ c i_; ElemMatchRegex categories_ c i_]]
  /\ (forall d,
        matches (build_query p) d
        = keyword_group k d && category_group c d
          && location_filter p d && featured_filter p d)
  /\ (supplied (p_location p) = None -> wants_featured p = false ->
      forall d,
        matches (build_query p) d = true
        <-> keyword_group k d = true /\ category_group c d = true)
  /\ (literal_pattern k -> literal_pattern c ->
      supplied (p_location p) = None -> wants_featured p = false ->
      forall d,
        matches (build_query p) d = true
        <-> substring_keyword_group k d = true
            /\ substring_category_group c d = true).
Proof.
  intros Hk Hc. rewrite (build_query_both p Hk Hc).
  assert (Hm : forall d,
    matches
      {| or_ := None;
         loc_ := option_map (fun l => Regex location_ l i_)
                   (supplied (p_location p));
         and_ := Some [[Regex title_ k i_; Regex company_ k i_;
                        Regex description_ k i_];
                       [Regex category_ c i_;
                        ElemMatchRegex categories_ c i_]];
         featured_ := if wants_featured p then Some true else None |} d
    = keyword_group k d && category_group c d
      && location_filter p d && featured_filter p d).
  { intros d. unfold matches, location_filter, featured_filter,
      keyword_group, category_group.
    cbn [or_ loc_ and_ featured_ when forallb or_matches existsb
         cond_matches get].
    destruct (supplied (p_location p)) as [l|], (wants_featured p);
      cbn [option_map when cond_matches get];
      repeat match goal with
      | |- context [regex_on ?r ?o ?v] => destruct (regex_on r o v)
      | |- context [elemMatch_on ?r ?o ?v] => destruct (elemMatch_on r o v)
      | |- context [equals_bool ?x ?v] => destruct (equals_bool x v)
      end; reflexivity. }
  assert (Hboth : supplied (p_location p) = None -> wants_featured p = false ->
            forall d,
              matches
                {| or_ := None;
                   loc_ := option_map (fun l => Regex location_ l i_)
                             (supplied (p_location p));
                   and_ := Some [[Regex title_ k i_; Regex company_ k i_;
                                  Regex description_ k i_];
                                 [Regex category_ c i_;
                                  ElemMatchRegex categories_ c i_]];
                   featured_ := if wants_featured p then Some true
                                else None |} d = true
              <-> keyword_group k d = true /\ category_group c d = true).
  { intros Hl Hf d. rewrite Hm. unfold location_filter, featured_filter.
    rewrite Hl, Hf, !andb_true_r. apply andb_true_iff. }
  split; [reflexivity|]. split; [reflexivity|]. split; [exact Hm|].
  split; [exact Hboth|].
  intros Lk Lc Hl Hf d. rewrite (Hboth Hl Hf d).
  unfold keyword_group, category_group, substring_keyword_group,
    substring_category_group.
  now rewrite !(regex_on_literal _ Lk), (regex_on_literal _ Lc),
    (elemMatch_on_literal _ Lc).
Qed.

(** *** Order and limit *)

(** [a] may come before [b] in a list ordered by creation date,
    descending. *)
Definition newest_first (a b : job) : Prop :=
  (created_at b <= created_at a)%Z.

Lemma insert_sorted_perm dir x l :
  Permutation (insert_sorted dir x l) (x :: l).
Proof.
  induction l as [|y l IH]; cbn; [reflexivity|].
  destruct (before dir y x); [|reflexivity].
  rewrite IH. apply perm_swap.
Qed.

Lemma insert_sorted_newest_first x l :
  StronglySorted newest_first l ->
  StronglySorted newest_first (insert_sorted (-1) x l).
Proof.
  induction l as [|y l IH]; intros Hs; cbn [insert_sorted].
  - constructor; constructor.
  - apply StronglySorted_inv in Hs. destruct Hs as [Hs Hy].
    unfold before. cbn [Z.ltb Z.compare].
    destruct (created_at x <=? created_at y)%Z eqn:L.
    + apply Z.leb_le in L. constructor; [now apply IH|].
      apply Forall_forall. intros z Hz.
      apply (Permutation_in _ (insert_sorted_perm (-1) x l)) in Hz.
      destruct Hz as [<-|Hz]; [exact L|].
      rewrite Forall_forall in Hy. now apply Hy.
    + apply Z.leb_gt in L. constructor; [now constructor|].
      constructor; [unfold newest_first; lia|].
      eapply Forall_impl; [|exact Hy]. unfold newest_first. intros z. lia.
Qed.

Lemma sort_created_at_perm dir l : Permutation (sort_created_at dir l) l.
Proof.
  unfold sort_created_at.
  assert (H : forall acc,
    Permutation (fold_left (fun acc x => insert_sorted dir x acc) l acc)
                (acc ++ l)).
  { induction l as [|x l IH]; intros acc; cbn [fold_left].
    - now rewrite app_nil_r.
    - rewrite IH, insert_sorted_perm. apply Permutation_middle. }
  apply (H []).
Qed.

Lemma sort_created_at_newest_first l :
  StronglySorted newest_first (sort_created_at (-1) l).
Proof.
  unfold sort_created_at.
  assert (H : forall acc, StronglySorted newest_first acc ->
    StronglySorted newest_first
      (fold_left (fun acc x => insert_sorted (-1) x acc) l acc)).
  { induction l as [|x l IH]; intros acc Ha; cbn [fold_left]; auto.
    apply IH. now apply insert_sorted_newest_first. }
  apply H. constructor.
Qed.

Lemma firstn_newest_first n l :
  StronglySorted newest_first l -> StronglySorted newest_first (firstn n l).
Proof.
  revert n. induction l as [|x l IH]; intros [|n] Hs; cbn [firstn];
    try constructor.
  - apply IH. now apply StronglySorted_inv in Hs.
  - apply StronglySorted_inv in Hs. destruct Hs as [_ Hx].
    rewrite Forall_forall in *. intros z Hz. apply Hx.
    rewrite <- (firstn_skipn n l). apply in_or_app. now left.
Qed.

Lemma cursor_limit_newest_first n l r :
  StronglySorted newest_first l ->
  cursor_limit n l = Some r ->
  StronglySorted newest_first r.
Proof.
  intros Hs. unfold cursor_limit.
  assert (Hirr : option_map (fun k => firstn k l)
                   (limit_irregular n (List.length l)) = Some r ->
                 StronglySorted newest_first r).
  { destruct (limit_irregular n (List.length l)); cbn; [|discriminate].
    intros [= <-]. now apply firstn_newest_first. }
  destruct n as [z|]; [|exact Hirr].
  destruct (z =? 0)%Z; [now intros [= <-]|].
  destruct ((0 <? z) && (z <=? 2 ^ 53))%Z; [|exact Hirr].
  intros [= <-]. now apply firstn_newest_first.
Qed.

(** The request with its [sort] parameter replaced. *)
Definition with_sort (s : option jsstr) (p : jobs_params) : jobs_params :=
  {| keyword := keyword p;
     p_location := p_location p;
     p_category := p_category p;
     p_featured := p_featured p;
     limit := limit p;
     sort := s |}.

(** The value the handler passes to [limit]. *)
Definition limitNum (p : jobs_params) : option Z :=
  match supplied (limit p) with
  | Some l => parseInt l
  | None => Some 0%Z
  end.

Lemma list_jobs_eq p st :
  list_jobs p st
  = match find_query (build_query p) (jobsCollection st) with
    | Some found =>
        match cursor_limit (limitNum p) (sort_created_at (-1) found) with
        | Some jobs => (res_json (PJobs jobs (List.length jobs)), st)
        | None => (res_status 500 (PError (lit "Failed to fetch jobs")), st)
        end
    | None => (res_status 500 (PError (lit "Failed to fetch jobs")), st)
    end.
Proof.
  unfold list_jobs, limitNum.
  destruct (match sort p with
            | Some s => jsstr_eqb s (lit "newest")
            | None => false
            end);
    destruct (find_query (build_query p) (jobsCollection st)) as [found|];
    try reflexivity;
    destruct (cursor_limit _ (sort_created_at (-1) found)); reflexivity.
Qed.

(** C7: for every list-jobs request, the answer does not depend on the
    [sort] parameter, and the jobs it returns (when the database does
    not fail) are ordered by creation date, descending. *)
Theorem list_jobs_newest_first p st :
  (forall s, list_jobs (with_sort s p) st = list_jobs p st)
  /\ (list_jobs p st
      = (res_status 500 (PError (lit "Failed to fetch jobs")), st)
      \/ exists jobs,
           list_jobs p st = (res_json (PJobs jobs (List.length jobs)), st)
           /\ StronglySorted newest_first jobs).
Proof.
  split.
  - intros s. now rewrite !list_jobs_eq.
  - rewrite list_jobs_eq.
    destruct (find_query (build_query p) (jobsCollection st)) as [found|];
      [|now left].
    destruct (cursor_limit (limitNum p) (sort_created_at (-1) found))
      as [jobs|] eqn:L; [|now left].
    right. exists jobs. split; [reflexivity|].
    eapply cursor_limit_newest_first; [|exact L].
    apply sort_created_at_newest_first.
Qed.

(** *** [parseInt] on decimal numerals *)

Definition is_digit (c : N) : bool := ((48 <=? c) && (c <=? 57))%N.

(** The number a string of decimal digits writes. *)
Definition decimal (s : jsstr) : N :=
  fold_left (fun a c => (10 * a + (c - 48))%N) s 0%N.

Lemma is_digit_cases (c : N) :
  is_digit c = true ->
  (c = 48 \/ c = 49 \/ c = 50 \/ c = 51 \/ c = 52 \/ c = 53 \/ c = 54
   \/ c = 55 \/ c = 56 \/ c = 57)%N.
Proof.
  unfold is_digit. intros H. apply andb_prop in H. destruct H as [L U].
  apply N.leb_le in L, U. lia.
Qed.

Lemma parse_digits_decimal (s : jsstr) (acc : N) :
  forallb is_digit s = true ->
  parse_digits 10 s (Some acc)
  = Some (fold_left (fun a c => (10 * a + (c - 48))%N) s acc).
Proof.
  revert acc. induction s as [|c s IH]; intros acc H; [reflexivity|].
  cbn [forallb] in H. apply andb_prop in H. destruct H as [Hc Hs].
  cbn [parse_digits fold_left].
  assert (digit_value 10 c = Some (c - 48)%N) as ->.
  { destruct (is_digit_cases _ Hc) as [->|[->|[->|[->|[->|[->|[->|[->|[->| ->]]]]]]]]];
      reflexivity. }
  now apply IH.
Qed.

(** A string of decimal digits is read by [parseInt] as the number it
    writes. *)
Lemma parseInt_decimal (s : jsstr) :
  s <> [] -> forallb is_digit s = true ->
  parseInt s = Some (Z.of_N (decimal s)).
Proof.
  intros Hne H. destruct s as [|c s]; [now destruct Hne|].
  cbn [forallb] in H. apply andb_prop in H. destruct H as [Hc Hs].
  assert (Hgen : forall r, forallb is_digit r = true ->
            parse_digits 10 (c :: r) None
            = Some (fold_left (fun a c => (10 * a + (c - 48))%N) (c :: r) 0%N)).
  { intros r Hr. cbn [parse_digits fold_left].
    assert (digit_value 10 c = Some (c - 48)%N) as ->.
    { destruct (is_digit_cases _ Hc) as [->|[->|[->|[->|[->|[->|[->|[->|[->| ->]]]]]]]]];
        reflexivity. }
    now apply parse_digits_decimal. }
  assert (Hp : parseInt (c :: s)
               = option_map (fun m => (1 * Z.of_N m)%Z)
                   (parse_digits 10 (c :: s) None)).
  { destruct (is_digit_cases _ Hc) as [->|[->|[->|[->|[->|[->|[->|[->|[->| ->]]]]]]]]];
      try reflexivity.
    destruct s as [|c2 s]; [reflexivity|].
    cbn [forallb] in Hs. apply andb_prop in Hs. destruct Hs as [Hc2 _].
    destruct (is_digit_cases _ Hc2) as [->|[->|[->|[->|[->|[->|[->|[->|[->| ->]]]]]]]]];
      reflexivity. }
  rewrite Hp, (Hgen s Hs). cbn [option_map]. unfold decimal.
  now rewrite Z.mul_1_l.
Qed.

(** The string is written as a positive integer: decimal digits only,
    not all of them zero. *)
Definition positive_integer (s : jsstr) : bool :=
  match s with
  | [] => false
  | _ :: _ => forallb is_digit s && existsb (fun c => negb (c =? 48)%N) s
  end.

Lemma decimal_positive (s : jsstr) :
  positive_integer s = true -> (0 < decimal s)%N.
Proof.
  unfold positive_integer, decimal. destruct s as [|c0 s0]; [discriminate|].
  generalize (c0 :: s0) as s. clear. intros s H.
  apply andb_prop in H. destruct H as [Hd Hn].
  assert (Hacc : forall r acc, (0 < acc)%N ->
            (0 < fold_left (fun a c => (10 * a + (c - 48))%N) r acc)%N).
  { induction r as [|c r IH]; intros acc Ha; cbn [fold_left]; [assumption|].
    apply IH. lia. }
  assert (Hgen : forall acc,
            (0 < fold_left (fun a c => (10 * a + (c - 48))%N) s acc)%N).
  { induction s as [|c s IH]; intros acc; [discriminate|].
    cbn [forallb existsb fold_left] in *.
    apply andb_prop in Hd. destruct Hd as [Hc Hs].
    apply orb_prop in Hn. destruct Hn as [Hn|Hn].
    - apply Hacc. apply negb_true_iff, N.eqb_neq in Hn.
      unfold is_digit in Hc. apply andb_prop in Hc. destruct Hc as [L _].
      apply N.leb_le in L. lia.
    - now apply IH. }
  apply Hgen.
Qed.

(** All the jobs the filter of the request matches, newest first. *)
Definition selected (p : jobs_params) (st : store) : list job :=
  sort_created_at (-1)
    (filter (matches (build_query p)) (jobsCollection st)).

Lemma selected_In p st j :
  In j (selected p st)
  <-> In j (jobsCollection st) /\ matches (build_query p) j = true.
Proof.
  unfold selected. rewrite <- filter_In. split; apply Permutation_in.
  - apply sort_created_at_perm.
  - symmetry. apply sort_created_at_perm.
Qed.

Lemma list_jobs_limited p st l n :
  query_valid (build_query p) = true ->
  supplied (limit p) = Some l -> parseInt l = Some n ->
  (0 < n <= 2 ^ 53)%Z ->
  let jobs := firstn (Z.to_nat n) (selected p st) in
  list_jobs p st = (res_json (PJobs jobs (List.length jobs)), st)
  /\ (Z.of_nat (List.length jobs) <= n)%Z.
Proof.
  intros Hq Hl Hn Hr jobs. rewrite list_jobs_eq.
  unfold find_query, limitNum. rewrite Hq, Hl, Hn.
  unfold cursor_limit.
  assert ((n =? 0)%Z = false) as -> by (apply Z.eqb_neq; lia).
  assert (((0 <? n) && (n <=? 2 ^ 53))%Z = true) as ->.
  { apply andb_true_iff. split; [apply Z.ltb_lt|apply Z.leb_le]; lia. }
  split; [reflexivity|].
  subst jobs. pose proof (firstn_le_length (Z.to_nat n) (selected p st)).
  fold (selected p st). lia.
Qed.

(** C8, as the handler has it: for every list-jobs request whose filter
    the database accepts, when the [limit] parameter is a positive
    integer [n] and, more generally, when [parseInt] reads from it a
    positive integer [n] ([n] up to 2^53), the answer is the first [n]
    of the matching jobs in sort order, so at most [n] jobs; when the
    parameter is absent or empty, or [parseInt] reads [0] from it, the
    answer is all the matching jobs. *)
Theorem list_jobs_limit p st :
  query_valid (build_query p) = true ->
  (forall l,
     supplied (limit p) = Some l -> positive_integer l = true ->
     (Z.of_N (decimal l) <= 2 ^ 53)%Z ->
     let jobs := firstn (N.to_nat (decimal l)) (selected p st) in
     list_jobs p st = (res_json (PJobs jobs (List.length jobs)), st)
     /\ List.length jobs <= N.to_nat (decimal l))
  /\ (forall l n,
       supplied (limit p) = Some l -> parseInt l = Some n ->
       (0 < n <= 2 ^ 53)%Z ->
       let jobs := firstn (Z.to_nat n) (selected p st) in
       list_jobs p st = (res_json (PJobs jobs (List.length jobs)), st)
       /\ (Z.of_nat (List.length jobs) <= n)%Z)
  /\ (supplied (limit p) = None
      \/ (exists l, supplied (limit p) = Some l /\ parseInt l = Some 0%Z) ->
      list_jobs p st
      = (res_json (PJobs (selected p st) (List.length (selected p st))), st))
  /\ (forall j, In j (selected p st)
                <-> In j (jobsCollection st)
                    /\ matches (build_query p) j = true).
Proof.
  intros Hq. split; [|split; [|split; [|apply selected_In]]].
  - intros l Hl Hpos Hmax jobs.
    pose proof (decimal_positive _ Hpos) as Hd.
    assert (Hp : parseInt l = Some (Z.of_N (decimal l))).
    { unfold positive_integer in Hpos. destruct l as [|c l]; [discriminate|].
      apply andb_prop in Hpos. destruct Hpos as [Hdig _].
      now apply parseInt_decimal. }
    destruct (@list_jobs_limited p st l _ Hq Hl Hp) as [Hj Hlen]; [lia|].
    assert (Z.to_nat (Z.of_N (decimal l)) = N.to_nat (decimal l)) as Ez by lia.
    cbv zeta in Hj, Hlen. rewrite Ez in Hj, Hlen.
    split; [exact Hj|]. subst jobs. lia.
  - intros l n. now apply list_jobs_limited.
  - intros H. rewrite list_jobs_eq. unfold find_query, limitNum. rewrite Hq.
    destruct H as [->|(l & -> & ->)]; reflexivity.
Qed.

End Properties.

(** * The other routes

    [GET /api/applications], [GET /api/applications/:jobId] and
    [POST /api/seed].  Their answers have bodies of their own. *)

Section Routes.

Context {E : Externals}.

Record reply (P : Type) : Type := { code : nat; body : P }.

Inductive applications_payload : Type :=
| AError (error : jsstr)
| AList (applications : list application) (total : nat).

(** [.sort({ created_at: dir })] on applications: as for jobs,
    applications of equal date keep their order. *)
Definition app_before (dir : Z) (a b : application) : bool :=
  if (dir <? 0)%Z then (app_created_at b <=? app_created_at a)%Z
  else (app_created_at a <=? app_created_at b)%Z.

Fixpoint insert_application (dir : Z) (x : application)
  (l : list application) : list application :=
  match l with
  | [] => [x]
  | y :: l' =>
      if app_before dir y x then y :: insert_application dir x l'
      else x :: y :: l'
  end.

Definition sort_applications (dir : Z) (l : list application)
  : list application :=
  fold_left (fun acc x => insert_application dir x acc) l [].

(** [GET /api/applications].  No step of the body throws while the
    database is reachable. *)
Definition get_applications (st : store)
  : reply applications_payload * store :=
  let applications := sort_applications (-1) (applicationsCollection st) in
  ({| code := 200; body := AList applications (List.length applications) |},
   st).

(** [.find({ job_id: id })] on applications. *)
Definition refers_to (id : ObjectId) (a : application) : bool :=
  if oid_eq_dec (job_id a) id then true else false.

(** [GET /api/applications/:jobId] *)
Definition applications_for_job (jobId : jsstr) (st : store)
  : reply applications_payload * store :=
  if negb (isValid (VStr jobId))
  then ({| code := 400; body := AError (lit "Invalid job ID") |}, st)
  else
    let applications :=
      sort_applications (-1)
        (filter (refers_to (newObjectId (VStr jobId)))
           (applicationsCollection st)) in
    ({| code := 200;
        body := AList applications (List.length applications) |}, st).

(** ** The seed route *)

Inductive seed_payload : Type :=
| SMessage (message : jsstr)
| SError (error details : jsstr).

Record logos_table : Type := {
  revolut : value;
  dropbox : value;
  pitch : value;
  blendd : value;
  cloudpass : value;
  canva : value;
  godaddy : value;
  twitter : value;
  nomad : value;
  netlify : value;
  terraform : value;
  packer : value;
  maze : value;
  udacity : value;
  webflow : value
}.

Definition logos : logos_table :=
  {| revolut := VStr (lit "https://logo.clearbit.com/revolut.com");
     dropbox := VStr (lit "https://logo.clearbit.com/dropbox.com");
     pitch := VStr (lit "https://logo.clearbit.com/pitch.com");
     blendd := VNull;
     cloudpass := VNull;
     canva := VStr (lit "https://logo.clearbit.com/canva.com");
     godaddy := VStr (lit "https://logo.clearbit.com/godaddy.com");
     twitter := VStr (lit "https://logo.clearbit.com/twitter.com");
     nomad := VStr (lit "https://logo.clearbit.com/nomad.com");
     netlify := VStr (lit "https://logo.clearbit.com/netlify.com");
     terraform := VStr (lit "https://logo.clearbit.com/terraform.io");
     packer := VStr (lit "https://logo.clearbit.com/hashicorp.com");
     maze := VStr (lit "https://logo.clearbit.com/maze.co");
     udacity := VStr (lit "https://logo.clearbit.com/udacity.com");
     webflow := VStr (lit "https://logo.clearbit.com/webflow.com") |}.

(** One hour, in milliseconds: [60 * 60 * 1000]. *)
Definition hour : Z := (60 * 60 * 1000)%Z.

(** The sample jobs.  [Date.now()] is read once for each of them:
    [clock k] is the reading for the job of index [k]; [fresh k] is the
    [_id] the driver gives it on insertion. *)
Definition sample (k : nat) (title_ company_ location_ : string)
  (categories_ : list string) (description_ : jsstr) (featured_ : bool)
  (logo_ : value) (hours : Z) (clock : nat -> Z) (fresh : nat -> ObjectId)
  : job :=
  {| _id := fresh k;
     title := VStr (lit title_);
     company := VStr (lit company_);
     location := VStr (lit location_);
     category := VUndefined;
     categories := VArr (List.map (fun c => VStr (lit c)) categories_);
     description := VStr description_;
     type := VStr (lit "Full Time");
     featured := VBool featured_;
     logo := logo_;
     created_at := (clock k - hours * hour)%Z |}.

Definition sampleJobs (clock : nat -> Z) (fresh : nat -> ObjectId)
  : list job :=
  List.map (fun mk => mk clock fresh)
    [
     sample 0 "Email Marketing" "Revolut" "Madrid, Spain"
       ["Marketing"]%string
       (lit "Revolut is looking for an Email Marketing specialist"
        ++ lit " to help teams build and optimise email campaigns th"
        ++ lit "at drive customer engagement and retention across Eu"
        ++ lit "rope.")
       true (revolut logos) 0;
     sample 1 "Brand Designer" "Dropbox" "San Francisco, US"
       ["Design"; "Business"]%string
       (lit "Dropbox is looking for a Brand Designer to help the "
        ++ lit "team create beautiful and consistent design systems "
        ++ lit "across all brand touchpoints.")
       true (dropbox logos) 1;
     sample 2 "Email Marketing" "Pitch" "Berlin, Germany"
       ["Marketing"]%string
       (lit "Pitch is looking for a Customer Manager to join the "
        ++ lit "marketing team and drive impactful campaigns across "
        ++ lit "digital channels.")
       true (pitch logos) 2;
     sample 3 "Visual Designer" "Blendd" "Granada, Spain"
       ["Design"]%string
       (lit "Blendd is looking for a Visual Designer to help team"
        ++ lit "s design stunning brand identities and digital exper"
        ++ lit "iences.")
       true (blendd logos) 3;
     sample 4 "Product Designer" "Cloudpass" "Manchester, UK"
       ["Marketing"; "Design"]%string
       (lit "Cloudpass is looking for a Product Designer to help "
        ++ lit "build the next generation of cloud security tools wi"
        ++ lit "th intuitive, user-first design.")
       true (cloudpass logos) 4;
     sample 5 "Lead Designer" "Canva" "Ontario, Canada"
       ["Design"; "Business"]%string
       (lit "Canva is looking for a Lead Designer to develop and "
        ++ lit "ship new design features across our creative platfor"
        ++ lit "m used by millions worldwide.")
       true (canva logos) 5;
     sample 6 "Brand Strategist" "GoDaddy" "Marseille, France"
       ["Marketing"]%string
       (lit "GoDaddy is looking for a Brand Strategist to join th"
        ++ lit "e team and shape the voice, positioning, and identit"
        ++ lit "y of our global brand.")
       true (godaddy logos) 6;
     sample 7 "Data Analyst" "Twitter" "San Diego, US"
       ["Technology"]%string
       (lit "Twitter is looking for a Data Analyst to help teams "
        ++ lit "derive actionable insights from complex datasets and"
        ++ lit " shape product decisions.")
       true (twitter logos) 7;
     sample 8 "Social Media Assistant" "Nomad" "Paris, France"
       ["Marketing"; "Design"]%string
       (lit "Nomad is looking for a Social Media Assistant to man"
        ++ lit "age and grow our online presence across Instagram, L"
        ++ lit "inkedIn, and Twitter.")
       false (nomad logos) 8;
     sample 9 "Social Media Assistant" "Netlify" "Paris, France"
       ["Marketing"; "Design"]%string
       (lit "Netlify is looking for a Social Media Assistant to g"
        ++ lit "row brand awareness and manage community engagement "
        ++ lit "across all platforms.")
       false (netlify logos) 9;
     sample 10 "Brand Designer" "Dropbox" "San Fransisco, USA"
       ["Marketing"; "Design"]%string
       (lit "Dropbox is looking for a Brand Designer to craft com"
        ++ lit "pelling visual assets across all brand channels and "
        ++ lit "campaigns.")
       false (dropbox logos) 10;
     sample 11 "Brand Designer" "Maze" "San Fransisco, USA"
       ["Marketing"; "Design"]%string
       (lit "Maze is looking for a Brand Designer to create stunn"
        ++ lit "ing visual systems for our product and marketing mat"
        ++ lit "erials.")
       false (maze logos) 11;
     sample 12 "Interactive Developer" "Terraform" "Hamburg, Germany"
       ["Marketing"; "Design"]%string
       (lit "Terraform is looking for an Interactive Developer to"
        ++ lit " build immersive, high-performance web experiences f"
        ++ lit "or our platform.")
       false (terraform logos) 12;
     sample 13 "Interactive Developer" "Udacity" "Hamburg, Germany"
       ["Marketing"; "Design"]%string
       (lit "Udacity is looking for an Interactive Developer to b"
        ++ lit "uild next-gen interactive learning experiences for o"
        ++ lit "ur global student base.")
       false (udacity logos) 13;
     sample 14 "HR Manager" "Packer" "Lucern, Switzerland"
       ["Marketing"; "Management"]%string
       (lit "Packer is looking for an HR Manager to lead recruitm"
        ++ lit "ent, onboarding, and employee engagement initiatives"
        ++ lit " across the organisation.")
       false (packer logos) 14;
     sample 15 "HR Manager" "Webflow" "Lucern, Switzerland"
       ["Marketing"; "Management"]%string
       (lit "Webflow is looking for an HR Manager to scale our pe"
        ++ lit "ople operations and build a world-class team globall"
        ++ lit "y.")
       false (webflow logos) 15].


(** [insertMany(docs)], ordered: the documents are inserted one after
    the other; the first that the collection refuses stops the
    insertion and makes the call throw, the ones before it stay. *)
Fixpoint insertMany (docs : list job) (c : list job) : list job * bool :=
  match docs with
  | [] => (c, true)
  | d :: docs' =>
      match insertOne d c with
      | Some c' => insertMany docs' c'
      | None => (c, false)
      end
  end.

(** [String(n)] for a length. *)
Definition string_of_length (n : nat) : jsstr :=
  lit (DecimalString.NilZero.string_of_uint (Nat.to_uint n)).

(** [POST /api/seed].  [details] is the message of the error, when
    [insertMany] throws. *)
Definition seed (clock : nat -> Z) (fresh : nat -> ObjectId)
  (details : jsstr) (st : store) : reply seed_payload * store :=
  let emptied := @nil job in
  let sampleJobs := sampleJobs clock fresh in
  match insertMany sampleJobs emptied with
  | (jobs', true) =>
      ({| code := 200;
          body := SMessage (lit "Seeded "
                            ++ string_of_length (List.length sampleJobs)
                            ++ lit " jobs successfully") |},
       {| jobsCollection := jobs';
          applicationsCollection := applicationsCollection st |})
  | (jobs', false) =>
      ({| code := 500; body := SError (lit "Seeding failed") details |},
       {| jobsCollection := jobs';
          applicationsCollection := applicationsCollection st |})
  end.

(** ** All the routes

    A request to any of the routes, and the collections after it. *)
Inductive api_request : Type :=
| Route (r : request)
| GetApplications
| GetApplicationsFor (jobId : jsstr)
| PostSeed (clock : nat -> Z) (fresh : nat -> ObjectId) (details : jsstr).

Definition api_step (r : api_request) (st : store) : store :=
  match r with
  | Route r => snd (handle r st)
  | GetApplications => snd (get_applications st)
  | GetApplicationsFor jobId => snd (applications_for_job jobId st)
  | PostSeed clock fresh details => snd (seed clock fresh details st)
  end.

Definition api_serve (rs : list api_request) (st : store) : store :=
  fold_left (fun st r => api_step r st) rs st.

End Routes.

(** * Further properties of the routes *)

Section MoreProperties.

Context {E : Externals}.

(** ** The filter, for every combination of parameters *)

Definition keyword_filter (p : jobs_params) (d : job) : bool :=
  match supplied (keyword p) with
  | Some k => keyword_group k d
  | None => true
  end.

Definition category_filter (p : jobs_params) (d : job) : bool :=
  match supplied (p_category p) with
  | Some c => category_group c d
  | None => true
  end.

Lemma build_query_matches_aux p d :
  matches (build_query p) d
  = keyword_filter p d && category_filter p d
    && location_filter p d && featured_filter p d.
Proof.
  unfold build_query, keyword_filter, category_filter, location_filter,
    featured_filter, wants_featured.
  destruct (supplied (keyword p)) as [k|],
    (supplied (p_location p)) as [l|],
    (supplied (p_category p)) as [c|],
    (match p_featured p with
     | Some f => jsstr_eqb f (lit "true")
     | None => false
     end);
    unfold matches, keyword_group, category_group;
    cbn [or_ loc_ and_ featured_ when forallb or_matches existsb
         cond_matches get set_or set_loc set_and set_featured empty_query];
    repeat match goal with
    | |- context [regex_on ?r ?o ?v] => destruct (regex_on r o v)
    | |- context [elemMatch_on ?r ?o ?v] => destruct (elemMatch_on r o v)
    | |- context [equals_bool ?x ?v] => destruct (equals_bool x v)
    end; reflexivity.
Qed.

Lemma query_valid_no_pattern p :
  supplied (keyword p) = None -> supplied (p_location p) = None ->
  supplied (p_category p) = None ->
  query_valid (build_query p) = true.
Proof.
  intros Hk Hl Hc. unfold build_query. rewrite Hk, Hl, Hc.
  now destruct (match p_featured p with
                | Some f => jsstr_eqb f (lit "true")
                | None => false
                end).
Qed.

(** X1: whatever parameters a list-jobs request has, its filter matches
    a document exactly when each condition that is given holds: the
    keyword condition, the category condition, the location condition
    and the featured condition; a parameter that is absent or empty
    adds no condition.  When the database accepts the patterns and no
    limit is given, the jobs returned are exactly the jobs of the
    collection for which the given conditions hold. *)
Theorem list_jobs_filters p st :
  query_valid (build_query p) = true ->
  supplied (limit p) = None ->
  (forall d,
     matches (build_query p) d
     = keyword_filter p d && category_filter p d
       && location_filter p d && featured_filter p d)
  /\ exists jobs,
       list_jobs p st = (res_json (PJobs jobs (List.length jobs)), st)
       /\ forall j,
            In j jobs
            <-> In j (jobsCollection st)
                /\ keyword_filter p j = true /\ category_filter p j = true
                /\ location_filter p j = true /\ featured_filter p j = true.
Proof.
  intros Hq Hlim. split; [apply build_query_matches_aux|].
  exists (selected p st). split.
  - rewrite list_jobs_eq. unfold find_query, limitNum. now rewrite Hq, Hlim.
  - intros j. rewrite selected_In, build_query_matches_aux.
    rewrite !andb_true_iff. tauto.
Qed.

(** X2: a list-jobs request without keyword, location, category and
    limit, and whose featured parameter is not [true], is answered 200
    with all the jobs of the collection, each once, newest first, and
    their number as total. *)
Theorem list_jobs_everything p st :
  supplied (keyword p) = None -> supplied (p_location p) = None ->
  supplied (p_category p) = None -> wants_featured p = false ->
  supplied (limit p) = None ->
  exists jobs,
    list_jobs p st
    = (res_json (PJobs jobs (List.length (jobsCollection st))), st)
    /\ Permutation jobs (jobsCollection st)
    /\ StronglySorted newest_first jobs.
Proof.
  intros Hk Hl Hc Hf Hlim.
  assert (Hall : filter (matches (build_query p)) (jobsCollection st)
                 = jobsCollection st).
  { apply forallb_filter_id. apply forallb_forall. intros d _.
    rewrite build_query_matches_aux.
    unfold keyword_filter, category_filter, location_filter, featured_filter.
    now rewrite Hk, Hl, Hc, Hf. }
  exists (sort_created_at (-1) (jobsCollection st)).
  rewrite list_jobs_eq. unfold find_query, limitNum.
  rewrite (query_valid_no_pattern p Hk Hl Hc), Hlim, Hall.
  cbn [cursor_limit Z.eqb].
  pose proof (sort_created_at_perm (-1) (jobsCollection st)) as Hp.
  rewrite (Permutation_length Hp).
  repeat split; [exact Hp|apply sort_created_at_newest_first].
Qed.

(** ** Looking a job up *)

Lemma findOne_present (j : job) (c : list job) :
  ids_unique c -> In j c -> findOne (_id j) c = Some j.
Proof.
  unfold ids_unique, findOne.
  induction c as [|k c IH]; intros Hnd Hin; [contradiction|].
  cbn [List.map] in Hnd. apply NoDup_cons_iff in Hnd. destruct Hnd as [Hk Hnd].
  cbn [find]. unfold has_id at 1.
  destruct (oid_eq_dec (_id k) (_id j)) as [e|ne].
  - destruct Hin as [->|Hin]; [reflexivity|].
    destruct Hk. rewrite e. now apply in_map.
  - destruct Hin as [->|Hin]; [now destruct ne|]. now apply IH.
Qed.

Lemma findOne_Some (id : ObjectId) (c : list job) (j : job) :
  findOne id c = Some j -> In j c /\ _id j = id.
Proof.
  unfold findOne. intros H. apply find_some in H. destruct H as [Hin Hid].
  split; [assumption|]. unfold has_id in Hid.
  now destruct (oid_eq_dec (_id j) id).
Qed.

Lemma findOne_None_unused (id : ObjectId) (c : list job) :
  findOne id c = None -> unused id c.
Proof.
  unfold findOne. intros H j Hin Hid.
  apply (find_none _ _ H) in Hin. unfold has_id in Hin.
  now destruct (oid_eq_dec (_id j) id).
Qed.

(** X3: the get-job route never writes, and answers in one of three
    ways: 400 [Invalid job ID] when the identifier is not valid; 404
    [Job not found] when it is valid and no job has it; 200 with a job
    of the collection that has this identifier otherwise. *)
Theorem get_job_answers id st :
  isValid (VStr id) = false
  /\ get_job id st = (res_status 400 (PError (lit "Invalid job ID")), st)
  \/ isValid (VStr id) = true
  /\ unused (newObjectId (VStr id)) (jobsCollection st)
  /\ get_job id st = (res_status 404 (PError (lit "Job not found")), st)
  \/ isValid (VStr id) = true
  /\ exists j, In j (jobsCollection st) /\ _id j = newObjectId (VStr id)
              /\ get_job id st = (res_json (PJob j), st).
Proof.
  unfold get_job. destruct (isValid (VStr id)); [right|left; now split].
  destruct (findOne (newObjectId (VStr id)) (jobsCollection st)) as [j|] eqn:F.
  - right. split; [reflexivity|]. exists j.
    destruct (findOne_Some _ _ F). now repeat split.
  - left. repeat split. now apply findOne_None_unused.
Qed.

Lemma get_job_present_aux st j :
  ids_unique (jobsCollection st) ->
  In j (jobsCollection st) ->
  get_job (toHexString (_id j)) st = (res_json (PJob j), st).
Proof.
  intros Hu Hin. unfold get_job.
  rewrite toHexString_isValid, newObjectId_toHexString. cbn [negb].
  now rewrite (@findOne_present j _ Hu Hin).
Qed.

(** X4: every job of a collection is returned by the get-job route
    under the hexadecimal form of its identifier; in particular the
    identifier read back from that form is the job's own. *)
Theorem get_job_present st j :
  ids_unique (jobsCollection st) ->
  In j (jobsCollection st) ->
  get_job (toHexString (_id j)) st = (res_json (PJob j), st)
  /\ forall k, In k (jobsCollection st) ->
       get_job (toHexString (_id k)) st = get_job (toHexString (_id j)) st ->
       k = j.
Proof.
  intros Hu Hin. split; [now apply get_job_present_aux|].
  intros k Hk. rewrite !get_job_present_aux by assumption.
  now intros [= ->].
Qed.

(** ** Deleting a job *)

Lemma deleteOne_found (id : ObjectId) (c : list job) (j : job) :
  findOne id c = Some j ->
  exists c', deleteOne id c = (c', 1)
             /\ List.length c = S (List.length c')
             /\ incl c' c.
Proof.
  unfold findOne. induction c as [|k c IH]; [discriminate|].
  cbn [find deleteOne]. destruct (has_id id k).
  - intros _. exists c. repeat split. now apply incl_tl, incl_refl.
  - intros F. destruct (IH F) as (c' & Hd & Hlen & Hincl).
    exists (k :: c'). rewrite Hd. repeat split.
    + cbn. now rewrite Hlen.
    + intros x [->|Hx]; [now left|right; now apply Hincl].
Qed.

(** X5: the delete-job route never touches the applications, and
    answers in one of three ways: 400 [Invalid job ID] when the
    identifier is not valid, and 404 [Job not found] when it is valid
    and no job has it, both without writing; 200 otherwise, and then the
    collection has one job fewer and no job that it did not have. *)
Theorem delete_job_answers id st :
  isValid (VStr id) = false
  /\ delete_job id st = (res_status 400 (PError (lit "Invalid job ID")), st)
  \/ isValid (VStr id) = true
  /\ unused (newObjectId (VStr id)) (jobsCollection st)
  /\ delete_job id st = (res_status 404 (PError (lit "Job not found")), st)
  \/ isValid (VStr id) = true
  /\ exists j st',
       In j (jobsCollection st) /\ _id j = newObjectId (VStr id)
       /\ delete_job id st
          = (res_json (PMessage (lit "Job deleted successfully")), st')
       /\ List.length (jobsCollection st)
          = S (List.length (jobsCollection st'))
       /\ incl (jobsCollection st') (jobsCollection st)
       /\ applicationsCollection st' = applicationsCollection st.
Proof.
  unfold delete_job. destruct (isValid (VStr id)); [right|left; now split].
  destruct (findOne (newObjectId (VStr id)) (jobsCollection st)) as [j|] eqn:F.
  - right. split; [reflexivity|]. exists j.
    destruct (findOne_Some _ _ F) as [Hin Hid].
    destruct (deleteOne_found _ _ F) as (c' & Hd & Hlen & Hincl).
    rewrite Hd. cbn [negb Nat.eqb try_catch]. eexists.
    repeat split; try eassumption; reflexivity.
  - left. apply findOne_None_unused in F.
    rewrite (deleteOne_unused F). now repeat split.
Qed.

(** X6: after a job is deleted, the get-job route answers 404 for its
    identifier, and still returns every other job under its own. *)
Theorem delete_job_then_get_job st j k :
  ids_unique (jobsCollection st) ->
  In j (jobsCollection st) -> In k (jobsCollection st) -> k <> j ->
  let st' := snd (delete_job (toHexString (_id j)) st) in
  get_job (toHexString (_id j)) st'
  = (res_status 404 (PError (lit "Job not found")), st')
  /\ get_job (toHexString (_id k)) st' = (res_json (PJob k), st').
Proof.
  intros Hu Hj Hk Hne st'.
  destruct (@deleteOne_present _ j _ Hu Hj) as (c' & Hd & Hiff & Hun & Hu').
  assert (Est : st' = {| jobsCollection := c';
                         applicationsCollection := applicationsCollection st |}).
  { subst st'. unfold delete_job.
    rewrite toHexString_isValid, newObjectId_toHexString. cbn [negb].
    now rewrite Hd. }
  rewrite Est. split.
  - unfold get_job.
    rewrite toHexString_isValid, newObjectId_toHexString. cbn [negb jobsCollection].
    now rewrite (findOne_None Hun).
  - apply get_job_present_aux; cbn [jobsCollection]; [exact Hu'|].
    apply Hiff. now split.
Qed.

(** ** What [trim] leaves *)

Lemma trimStart_head (s : jsstr) :
  match trimStart s with c :: _ => is_space c | [] => false end = false.
Proof.
  induction s as [|c s IH]; [reflexivity|]. cbn [trimStart].
  destruct (is_space c) eqn:Sp; [exact IH|exact Sp].
Qed.

Lemma trimStart_split (s : jsstr) : exists pre, s = pre ++ trimStart s.
Proof.
  induction s as [|c s [pre IH]]; [now exists []|]. cbn [trimStart].
  destruct (is_space c); [|now exists []].
  exists (c :: pre). cbn. now rewrite <- IH.
Qed.

Lemma trimStart_fixed (s : jsstr) :
  match s with c :: _ => is_space c | [] => false end = false ->
  trimStart s = s.
Proof. destruct s as [|c s]; [reflexivity|]. cbn. now intros ->. Qed.

Lemma trim_no_outer_space (s : jsstr) : outer_space (trim s) = false.
Proof.
  unfold outer_space, trim, trimEnd. rewrite rev_involutive.
  set (t := trimStart s). set (u := trimStart (rev t)).
  pose proof (trimStart_head (rev t)) as Hu. fold u in Hu.
  rewrite Hu, orb_false_r.
  destruct (trimStart_split (rev t)) as [pre Hpre]. fold u in Hpre.
  assert (Ht : t = rev u ++ rev pre).
  { rewrite <- (rev_involutive t), Hpre. apply rev_app_distr. }
  pose proof (trimStart_head s) as Hh. fold t in Hh.
  destruct (rev u) as [|c r]; [reflexivity|].
  rewrite Ht in Hh. exact Hh.
Qed.

Lemma trim_fixed (s : jsstr) : outer_space s = false -> trim s = s.
Proof.
  unfold outer_space. intros H. apply orb_false_iff in H. destruct H as [H1 H2].
  unfold trim, trimEnd. rewrite (trimStart_fixed _ H1).
  rewrite (trimStart_fixed _ H2). apply rev_involutive.
Qed.

(** ** Creating a job *)

(** A string that is not empty and neither starts nor ends with white
    space. *)
Definition trimmed_text (v : value) : bool :=
  match v with
  | VStr s => negb (jsstr_eqb s []) && negb (outer_space s)
  | _ => false
  end.

Lemma typed_nonblank (v : value) :
  str_or_absent v = true -> nonblank v = negb (is_missing v).
Proof. now destruct v. Qed.

Lemma create_job_present now fresh b st :
  required_present b = true ->
  exists t c l g d,
    b_title b = VStr t /\ b_company b = VStr c /\ b_location b = VStr l
    /\ b_category b = VStr g /\ b_description b = VStr d
    /\ trim t <> [] /\ trim c <> [] /\ trim l <> [] /\ trim g <> []
    /\ trim d <> []
    /\ let newJob :=
         {| _id := fresh;
            title := VStr (trim t);
            company := VStr (trim c);
            location := VStr (trim l);
            category := VStr (trim g);
            categories := VUndefined;
            description := VStr (trim d);
            type := js_or (b_type b) (VStr (lit "Full Time"));
            featured := js_or (b_featured b) (VBool false);
            logo := js_or (b_logo b) VNull;
            created_at := now |} in
       create_job now fresh b st
       = if existsb (has_id fresh) (jobsCollection st)
         then (res_status 500 (PError (lit "Failed to create job")), st)
         else (res_status 201
                 (PJobCreated (lit "Job created successfully") fresh newJob),
               {| jobsCollection := jobsCollection st ++ [newJob];
                  applicationsCollection := applicationsCollection st |}).
Proof.
  intros Hp. unfold required_present in Hp.
  cbn [required forallb snd] in Hp.
  rewrite !andb_true_iff in Hp. destruct Hp as (H1 & H2 & H3 & H4 & H5 & _).
  destruct (nonblank_trim_of _ H1) as (t & Et & Bt & Nt & Tt).
  destruct (nonblank_trim_of _ H2) as (c & Ec & Bc & Nc & Tc).
  destruct (nonblank_trim_of _ H3) as (l & El & Bl & Nl & Tl).
  destruct (nonblank_trim_of _ H4) as (g & Eg & Bg & Ng & Tg).
  destruct (nonblank_trim_of _ H5) as (d & Ed & Bd & Nd & Td).
  exists t, c, l, g, d. repeat (split; [assumption|]).
  intros newJob. unfold create_job, push_missing.
  rewrite Nt, Nc, Nl, Ng, Nd, Tt, Tc, Tl, Tg, Td. cbn [bind].
  unfold insertOne. cbn [_id].
  now destruct (existsb (has_id fresh) (jobsCollection st)).
Qed.

Lemma create_job_refused now fresh b st :
  required_present b = false ->
  snd (create_job now fresh b st) = st
  /\ (status (fst (create_job now fresh b st)) = 400
      \/ status (fst (create_job now fresh b st)) = 500).
Proof.
  intros Hp.
  destruct (forallb (fun nv => str_or_absent (snd nv)) (required b)) eqn:Ht.
  - assert (Hm : missing_names b <> []).
    { unfold required_present in Hp. unfold missing_names.
      cbn [required forallb filter snd] in *.
      rewrite !andb_true_iff in Ht.
      destruct Ht as (H1 & H2 & H3 & H4 & H5 & _).
      rewrite (typed_nonblank _ H1), (typed_nonblank _ H2),
        (typed_nonblank _ H3), (typed_nonblank _ H4),
        (typed_nonblank _ H5) in Hp.
      destruct (is_missing (b_title b)), (is_missing (b_company b)),
        (is_missing (b_location b)), (is_missing (b_category b)),
        (is_missing (b_description b)); cbn in Hp |- *;
        try discriminate Hp; intros X; discriminate X. }
    rewrite (create_job_missing now fresh b st Ht Hm). split; [reflexivity|].
    now left.
  - rewrite (create_job_not_a_string_500 now fresh b st Ht).
    split; [reflexivity|]. now right.
Qed.

(** X7: whatever the request, the create-job route adds at most one
    job, and a job it adds has the generated identifier, the date of the
    request, no categories array, and as title, company, location,
    category and description strings that are not empty and neither
    start nor end with white space. *)
Theorem create_job_adds_trimmed now fresh b st j :
  In j (jobsCollection (snd (create_job now fresh b st))) ->
  In j (jobsCollection st)
  \/ (_id j = fresh /\ created_at j = now /\ categories j = VUndefined
      /\ forallb trimmed_text
           [title j; company j; location j; category j; description j]
         = true
      /\ jobsCollection (snd (create_job now fresh b st))
         = jobsCollection st ++ [j]).
Proof.
  destruct (required_present b) eqn:Hp.
  - destruct (create_job_present now fresh b st Hp)
      as (t & c & l & g & d & _ & _ & _ & _ & _
          & Nt & Nc & Nl & Ng & Nd & Hc).
    cbv zeta in Hc. rewrite Hc.
    destruct (existsb (has_id fresh) (jobsCollection st));
      cbn [snd jobsCollection]; [now left|].
    intros Hin. apply in_app_or in Hin. destruct Hin as [Hin|[<-|[]]];
      [now left|right].
    cbn [_id created_at categories title company location category
         description forallb trimmed_text].
    rewrite !trim_no_outer_space.
    apply jsstr_eqb_neq in Nt, Nc, Nl, Ng, Nd.
    rewrite Nt, Nc, Nl, Ng, Nd. now repeat split.
  - destruct (create_job_refused now fresh b st Hp) as [-> _]. now left.
Qed.

(** X8: the create-job route answers 201 exactly when the five required
    fields are strings that are not empty once trimmed and the generated
    identifier is not yet in the collection; in every other case it
    answers 400 or 500 and writes nothing. *)
Theorem create_job_created_iff now fresh b st :
  (status (fst (create_job now fresh b st)) = 201
   <-> required_present b = true
       /\ existsb (has_id fresh) (jobsCollection st) = false)
  /\ (status (fst (create_job now fresh b st)) <> 201 ->
      snd (create_job now fresh b st) = st
      /\ (status (fst (create_job now fresh b st)) = 400
          \/ status (fst (create_job now fresh b st)) = 500)).
Proof.
  destruct (required_present b) eqn:Hp.
  - destruct (create_job_present now fresh b st Hp)
      as (t & c & l & g & d & _ & _ & _ & _ & _ & _ & _ & _ & _ & _ & Hc).
    cbv zeta in Hc. rewrite Hc.
    destruct (existsb (has_id fresh) (jobsCollection st)); cbn [fst snd status].
    + split; [split; [discriminate|intros [_ X]; discriminate X]|].
      intros _. split; [reflexivity|now right].
    + split; [now split|]. intros X. now destruct X.
  - destruct (create_job_refused now fresh b st Hp) as [Hs Hst].
    split.
    + split; [|intros [X _]; discriminate X].
      intros X. destruct Hst as [Y|Y]; rewrite Y in X; discriminate X.
    + intros _. now split.
Qed.

(** X9: a job created with a [featured] value is listed by a request
    with [featured=true] (and no other parameter) exactly when that
    value is the boolean [true] or an array holding it: a job created
    with another truthy value, such as the string ["true"], is stored
    with it and is not listed as featured. *)
Theorem create_job_then_list_featured now fresh b st p :
  required_present b = true ->
  unused fresh (jobsCollection st) ->
  supplied (keyword p) = None -> supplied (p_location p) = None ->
  supplied (p_category p) = None -> supplied (limit p) = None ->
  wants_featured p = true ->
  exists jobs total,
    list_jobs p (snd (create_job now fresh b st))
    = (res_json (PJobs jobs total), snd (create_job now fresh b st))
    /\ ((exists j, In j jobs /\ _id j = fresh)
        <-> equals_bool true (b_featured b) = true).
Proof.
  intros Hp Hu Hk Hl Hc Hlim Hf.
  destruct (create_job_valid now b st Hp Hu)
    as (t & c & l & g & d & _ & _ & _ & _ & _ & Hcr).
  cbv zeta in Hcr. rewrite Hcr. cbn [snd].
  match goal with |- context [jobsCollection st ++ [?n]] => set (newJob := n) end.
  set (st' := {| jobsCollection := jobsCollection st ++ [newJob];
                 applicationsCollection := applicationsCollection st |}).
  exists (selected p st'), (List.length (selected p st')). split.
  - rewrite list_jobs_eq. unfold find_query, limitNum.
    now rewrite (query_valid_no_pattern p Hk Hl Hc), Hlim.
  - assert (Hm : forall x, matches (build_query p) x
                           = equals_bool true (featured x)).
    { intros x. rewrite build_query_matches_aux.
      unfold keyword_filter, category_filter, location_filter,
        featured_filter. now rewrite Hk, Hl, Hc, Hf. }
    assert (Hfe : equals_bool true (featured newJob)
                  = equals_bool true (b_featured b)).
    { subst newJob. cbn [featured]. unfold js_or.
      destruct (b_featured b) as [| |[|]|n|s| |]; try reflexivity.
      - now destruct n.
      - cbn [truthy]. now destruct (jsstr_eqb s []). }
    split.
    + intros (j & Hin & Hid). apply selected_In in Hin.
      destruct Hin as [Hin Hmj]. rewrite Hm in Hmj.
      cbn [st' jobsCollection] in Hin. apply in_app_or in Hin.
      destruct Hin as [Hin|[<-|[]]].
      * now destruct (Hu j Hin).
      * now rewrite <- Hfe.
    + intros Hb. exists newJob. split; [|reflexivity].
      apply selected_In. split.
      * cbn [st' jobsCollection]. apply in_or_app. right. now left.
      * now rewrite Hm, Hfe.
Qed.

(** ** Submitting an application *)

Lemma submit_application_present now fresh b st :
  truthy (b_job_id b) = true ->
  nonblank (b_name b) = true -> nonblank (b_email b) = true ->
  nonblank (b_resume_link b) = true -> nonblank (b_cover_note b) = true ->
  exists n e r c,
    b_name b = VStr n /\ b_email b = VStr e /\ b_resume_link b = VStr r
    /\ b_cover_note b = VStr c
    /\ submit_application now fresh b st
       = if negb (emailRegex_test e)
         then (res_status 400 (PError (lit "Invalid email format")), st)
         else if negb (url_parses r)
         then (res_status 400
                 (PError (lit "Resume link must be a valid URL")), st)
         else if negb (isValid (b_job_id b))
         then (res_status 400 (PError (lit "Invalid job ID")), st)
         else
           match findOne (newObjectId (b_job_id b)) (jobsCollection st) with
           | None => (res_status 404 (PError (lit "Job not found")), st)
           | Some _ =>
               let application :=
                 {| app_id := fresh;
                    job_id := newObjectId (b_job_id b);
                    name := trim n;
                    email := toLowerCase (trim e);
                    resume_link := trim r;
                    cover_note := trim c;
                    app_created_at := now |} in
               if existsb (app_has_id fresh) (applicationsCollection st)
               then (res_status 500
                       (PError (lit "Failed to submit application")), st)
               else (res_status 201
                       (PApplicationCreated
                          (lit "Application submitted successfully") fresh),
                     {| jobsCollection := jobsCollection st;
                        applicationsCollection :=
                          applicationsCollection st ++ [application] |})
           end.
Proof.
  intros Hid Hn He Hr Hc.
  destruct (nonblank_inv _ Hn) as (n & En & Tn & Sn).
  destruct (nonblank_inv _ He) as (e & Ee & Te & Se).
  destruct (nonblank_inv _ Hr) as (r & Er & Tr & Sr).
  destruct (nonblank_inv _ Hc) as (c & Ec & Tc & Sc).
  exists n, e, r, c. repeat (split; [assumption|]).
  unfold submit_application.
  rewrite Hid, Tn, Te, Tr, Tc, Se, Sr, Sn, Sc.
  cbn [negb orelse bind].
  destruct (emailRegex_test e); cbn [negb]; [|reflexivity].
  destruct (url_parses r); cbn [negb]; [|reflexivity].
  destruct (isValid (b_job_id b)); cbn [negb]; [|reflexivity].
  destruct (findOne (newObjectId (b_job_id b)) (jobsCollection st));
    [|reflexivity].
  cbn [bind]. unfold insertOneApplication. cbn [app_id].
  now destruct (existsb (app_has_id fresh) (applicationsCollection st)).
Qed.

(** The application identifier [id] is not yet in the collection. *)
Definition app_unused (id : ObjectId) (c : list application) : Prop :=
  forall a, In a c -> app_id a <> id.

Lemma existsb_app_has_id_unused (id : ObjectId) (c : list application) :
  app_unused id c -> existsb (app_has_id id) c = false.
Proof.
  intros H. destruct (existsb (app_has_id id) c) eqn:X; [|reflexivity].
  apply existsb_exists in X. destruct X as (a & Hin & Ha).
  unfold app_has_id in Ha. destruct (oid_eq_dec (app_id a) id); [|discriminate].
  now destruct (H a Hin).
Qed.

(** X10: an application that passes validation and refers to a job of
    the collection is answered 201 with the generated identifier; the
    jobs are left as they were, and the applications gain one document:
    the reference as an object identifier, the name, resume link and
    cover note trimmed, the email trimmed and lower-cased, and the date
    of the request. *)
Theorem submit_application_created now fresh b st j :
  truthy (b_job_id b) = true ->
  fields_valid b = true ->
  isValid (b_job_id b) = true ->
  In j (jobsCollection st) -> _id j = newObjectId (b_job_id b) ->
  app_unused fresh (applicationsCollection st) ->
  exists n e r c,
    b_name b = VStr n /\ b_email b = VStr e /\ b_resume_link b = VStr r
    /\ b_cover_note b = VStr c
    /\ submit_application now fresh b st
       = (res_status 201
            (PApplicationCreated (lit "Application submitted successfully")
               fresh),
          {| jobsCollection := jobsCollection st;
             applicationsCollection :=
               applicationsCollection st
               ++ [{| app_id := fresh;
                      job_id := _id j;
                      name := trim n;
                      email := toLowerCase (trim e);
                      resume_link := trim r;
                      cover_note := trim c;
                      app_created_at := now |}] |}).
Proof.
  intros Hid Hv Hval Hin Hj Hu. unfold fields_valid in Hv.
  rewrite !andb_true_iff in Hv.
  destruct Hv as (((((Hn & He) & Hr) & Hc) & Hre) & Hurl).
  destruct (submit_application_present now fresh b st Hid Hn He Hr Hc)
    as (n & e & r & c & En & Ee & Er & Ec & Hs).
  exists n, e, r, c. repeat (split; [assumption|]).
  rewrite Ee in Hre. rewrite Er in Hurl.
  rewrite Hs, Hre, Hurl, Hval. cbn [negb].
  destruct (findOne (newObjectId (b_job_id b)) (jobsCollection st)) eqn:F.
  - cbv zeta. rewrite (existsb_app_has_id_unused Hu). now rewrite Hj.
  - apply findOne_None_unused in F. now destruct (F j Hin).
Qed.

(** X11: an application without a job reference is answered 400 [All
    fields are required], whatever its other fields are; so is one
    whose name, email, resume link and cover note are each absent or a
    string, one of them absent or empty once trimmed.  Nothing is
    written. *)
Theorem submit_application_missing_field now fresh b st :
  truthy (b_job_id b) = false
  \/ (forallb str_or_absent
        [b_name b; b_email b; b_resume_link b; b_cover_note b] = true
      /\ existsb is_missing
           [b_name b; b_email b; b_resume_link b; b_cover_note b] = true) ->
  submit_application now fresh b st
  = (res_status 400 (PError (lit "All fields are required")), st).
Proof.
  intros [Hid|[Ht Hm]]; unfold submit_application.
  - now rewrite Hid.
  - cbn [forallb existsb] in Ht, Hm. rewrite !andb_true_iff in Ht.
    destruct Ht as (T1 & T2 & T3 & T4 & _).
    assert (Hnt : forall v, str_or_absent v = true ->
                            not_trim v = Next (is_missing v)).
    { intros v. now destruct v. }
    rewrite (Hnt _ T1), (Hnt _ T2), (Hnt _ T3), (Hnt _ T4).
    destruct (truthy (b_job_id b)); [|reflexivity].
    cbn [negb orelse bind].
    destruct (is_missing (b_name b)); [reflexivity|].
    destruct (is_missing (b_email b)); [reflexivity|].
    destruct (is_missing (b_resume_link b)); [reflexivity|].
    destruct (is_missing (b_cover_note b)); [reflexivity|discriminate Hm].
Qed.

(** X12: the checks of an application come in a fixed order.  Of the
    applications that pass the presence check, one whose email does not
    have the shape of the pattern is answered 400 [Invalid email
    format], whatever its resume link and job reference are; one whose
    email has it and whose resume link does not parse is answered 400
    [Resume link must be a valid URL], whatever its job reference is. *)
Theorem submit_application_check_order now fresh b st e r :
  truthy (b_job_id b) = true ->
  nonblank (b_name b) = true -> nonblank (b_cover_note b) = true ->
  b_email b = VStr e -> trim e <> [] ->
  b_resume_link b = VStr r -> trim r <> [] ->
  (emailRegex_test e = false ->
   submit_application now fresh b st
   = (res_status 400 (PError (lit "Invalid email format")), st))
  /\ (emailRegex_test e = true -> url_parses r = false ->
      submit_application now fresh b st
      = (res_status 400 (PError (lit "Resume link must be a valid URL")),
         st)).
Proof.
  intros Hid Hn Hc Ee He Er Hr.
  assert (Hbe : nonblank (b_email b) = true).
  { rewrite Ee. cbn. apply negb_true_iff. now apply jsstr_eqb_neq. }
  assert (Hbr : nonblank (b_resume_link b) = true).
  { rewrite Er. cbn. apply negb_true_iff. now apply jsstr_eqb_neq. }
  destruct (submit_application_present now fresh b st Hid Hn Hbe Hbr Hc)
    as (n & e' & r' & c & _ & Ee' & Er' & _ & Hs).
  rewrite Ee in Ee'. rewrite Er in Er'.
  injection Ee' as <-. injection Er' as <-. rewrite Hs. split.
  - now intros ->.
  - now intros -> ->.
Qed.

(** X13: the email pattern accepts exactly the strings made of one or
    more plain characters, ["@"], one or more plain characters, ["."]
    and one or more plain characters, where a plain character is any but
    white space and ["@"].  An accepted string has exactly one ["@"],
    and trimming leaves it as it is. *)
Theorem emailRegex_accepts (s : jsstr) :
  (emailRegex_test s = true
   <-> exists a b c,
         s = a ++ 64%N :: b ++ 46%N :: c
         /\ a <> [] /\ b <> [] /\ c <> []
         /\ forallb plain (a ++ b ++ c) = true)
  /\ (emailRegex_test s = true ->
      count_occ N.eq_dec s 64%N = 1 /\ trim s = s).
Proof.
  assert (Hplain : forall l, forallb plain l = true ->
            count_occ N.eq_dec l 64%N = 0).
  { intros l Hl. apply count_occ_not_In. intros Hin.
    rewrite forallb_forall in Hl. now specialize (Hl _ Hin). }
  split.
  - rewrite emailRegex_test_spec. split.
    + intros (a & b & c & Hs & Ha & Hb & Hc & Pa & Pb & Pc).
      exists a, b, c. repeat split; try assumption.
      now rewrite !forallb_app, Pa, Pb, Pc.
    + intros (a & b & c & Hs & Ha & Hb & Hc & P).
      rewrite !forallb_app, !andb_true_iff in P. destruct P as (Pa & Pb & Pc).
      exists a, b, c. now repeat split.
  - intros T. pose proof T as T'. apply emailRegex_test_spec in T'.
    destruct T' as (a & b & c & Hs & Ha & Hb & Hc & Pa & Pb & Pc). split.
    + rewrite Hs, count_occ_app, (Hplain _ Pa). cbn [count_occ].
      destruct (N.eq_dec 64 64) as [_|X]; [|now destruct X].
      rewrite count_occ_app, (Hplain _ Pb). cbn [count_occ].
      destruct (N.eq_dec 46 64) as [X|_]; [discriminate X|].
      now rewrite (Hplain _ Pc).
    + apply trim_fixed.
      destruct (outer_space s) eqn:O; [|reflexivity].
      apply emailRegex_outer_space in O. congruence.
Qed.

(** ** Every route *)

Lemma not_trim_cases (v : value) :
  not_trim v = Next true \/ not_trim v = Next false \/ not_trim v = Throw.
Proof. destruct v; cbn; auto. destruct (jsstr_eqb (trim s) []); auto. Qed.

Lemma submit_application_outcome now fresh b st :
  status (fst (submit_application now fresh b st)) = 201
  \/ snd (submit_application now fresh b st) = st
     /\ (status (fst (submit_application now fresh b st)) = 400
         \/ status (fst (submit_application now fresh b st)) = 404
         \/ status (fst (submit_application now fresh b st)) = 500).
Proof.
  destruct (truthy (b_job_id b)) eqn:Hid.
  2:{ right. unfold submit_application. rewrite Hid. cbn. auto. }
  assert (Hnb : forall v, nonblank v = false ->
            not_trim v = Next true \/ not_trim v = Throw).
  { intros v. destruct v; cbn; auto; try discriminate.
    intros H. apply negb_false_iff in H. rewrite H. auto. }
  assert (Hnn : forall v, nonblank v = true -> not_trim v = Next false).
  { intros v Hv. now destruct (nonblank_inv _ Hv) as (x & _ & Hx & _). }
  destruct (nonblank (b_name b)) eqn:Hn.
  2:{ right. unfold submit_application. rewrite Hid.
      destruct (Hnb _ Hn) as [->| ->]; cbn; auto. }
  destruct (nonblank (b_email b)) eqn:He.
  2:{ right. unfold submit_application. rewrite Hid, (Hnn _ Hn).
      destruct (Hnb _ He) as [->| ->]; cbn; auto. }
  destruct (nonblank (b_resume_link b)) eqn:Hr.
  2:{ right. unfold submit_application. rewrite Hid, (Hnn _ Hn), (Hnn _ He).
      destruct (Hnb _ Hr) as [->| ->]; cbn; auto. }
  destruct (nonblank (b_cover_note b)) eqn:Hc.
  2:{ right. unfold submit_application.
      rewrite Hid, (Hnn _ Hn), (Hnn _ He), (Hnn _ Hr).
      destruct (Hnb _ Hc) as [->| ->]; cbn; auto. }
  destruct (submit_application_present now fresh b st Hid Hn He Hr Hc)
    as (n & e & r & c & _ & _ & _ & _ & ->).
  destruct (emailRegex_test e); cbn [negb]; [|right; cbn; auto].
  destruct (url_parses r); cbn [negb]; [|right; cbn; auto].
  destruct (isValid (b_job_id b)); cbn [negb]; [|right; cbn; auto].
  destruct (findOne _ _); [|right; cbn; auto].
  cbv zeta. destruct (existsb _ _); [right|left]; cbn; auto.
Qed.

(** X14: every answer of the four jobs routes and of the
    submit-application route has status 200, 201, 400, 404 or 500, and
    a request answered 400, 404 or 500 has written nothing: the
    collections are as they were. *)
Theorem handle_outcome r st :
  (status (fst (handle r st)) = 200 \/ status (fst (handle r st)) = 201)
  \/ snd (handle r st) = st
     /\ (status (fst (handle r st)) = 400
         \/ status (fst (handle r st)) = 404
         \/ status (fst (handle r st)) = 500).
Proof.
  destruct r as [p|id|now fresh b|id|now fresh b]; cbn [handle].
  - rewrite list_jobs_eq.
    destruct (find_query _ _); [|right; cbn; auto].
    destruct (cursor_limit _ _); [left|right]; cbn; auto.
  - unfold get_job. destruct (isValid (VStr id)); [|right; cbn; auto].
    destruct (findOne _ _); [left|right]; cbn; auto.
  - destruct (required_present b) eqn:Hp.
    + destruct (create_job_present now fresh b st Hp)
        as (t & c & l & g & d & _ & _ & _ & _ & _ & _ & _ & _ & _ & _ & Hc).
      cbv zeta in Hc. rewrite Hc.
      destruct (existsb _ _); [right|left]; cbn; auto.
    + destruct (create_job_refused now fresh b st Hp) as [Hs [H|H]];
        right; auto.
  - unfold delete_job. destruct (isValid (VStr id)); [|right; cbn; auto].
    destruct (deleteOne _ _) as [c n].
    destruct n; [right|left]; cbn; auto.
  - destruct (submit_application_outcome now fresh b st) as [H|[H H']]; auto.
Qed.

(** ** The limit parameter *)

(** The request with its [limit] parameter replaced. *)
Definition set_limit (l : option jsstr) (p : jobs_params) : jobs_params :=
  {| keyword := keyword p;
     p_location := p_location p;
     p_category := p_category p;
     p_featured := p_featured p;
     limit := l;
     sort := sort p |}.

Lemma parse_digits_prefix (ds r : jsstr) (c : N) (acc : option N) :
  forallb is_digit ds = true -> digit_value 10 c = None ->
  parse_digits 10 (ds ++ c :: r) acc = parse_digits 10 ds acc.
Proof.
  revert acc. induction ds as [|x ds IH]; intros acc Hd Hc.
  - cbn. now rewrite Hc.
  - cbn [forallb] in Hd. apply andb_prop in Hd. destruct Hd as [Hx Hd].
    cbn [app parse_digits]. destruct (digit_value 10 x); [|reflexivity].
    now apply IH.
Qed.

Lemma parseInt_prefix (ds r : jsstr) (c : N) :
  ds <> [] -> forallb is_digit ds = true ->
  is_digit c = false -> c <> 120%N -> c <> 88%N ->
  parseInt (ds ++ c :: r) = parseInt ds.
Proof.
  intros Hne Hd Hc Hx HX.
  assert (Hv : digit_value 10 c = None).
  { unfold digit_value, is_digit in *.
    destruct ((48 <=? c) && (c <=? 57))%N; [discriminate|].
    destruct ((97 <=? c) && (c <=? 122))%N eqn:L.
    - apply andb_prop in L. destruct L as [L _]. apply N.leb_le in L.
      assert ((c - 87 <? 10)%N = false) as -> by (apply N.ltb_ge; lia).
      reflexivity.
    - destruct ((65 <=? c) && (c <=? 90))%N eqn:U; [|reflexivity].
      apply andb_prop in U. destruct U as [U _]. apply N.leb_le in U.
      assert ((c - 55 <? 10)%N = false) as -> by (apply N.ltb_ge; lia).
      reflexivity. }
  rewrite (parseInt_decimal Hne Hd).
  destruct ds as [|x ds]; [now destruct Hne|].
  cbn [forallb] in Hd. apply andb_prop in Hd. destruct Hd as [Hx0 Hds].
  assert (Hp : parseInt ((x :: ds) ++ c :: r)
               = option_map (fun m => (1 * Z.of_N m)%Z)
                   (parse_digits 10 ((x :: ds) ++ c :: r) None)).
  { destruct (is_digit_cases _ Hx0)
      as [->|[->|[->|[->|[->|[->|[->|[->|[->| ->]]]]]]]]]; try reflexivity.
    destruct ds as [|y ds].
    - cbn [app]. unfold parseInt. cbn [trimStart is_space].
      change (is_space 48) with false. cbv iota.
      destruct c as [|q]; [reflexivity|].
      destruct (Pos.eq_dec q 120) as [->|N1]; [now destruct Hx|].
      destruct (Pos.eq_dec q 88) as [->|N2]; [now destruct HX|].
      do 7 (destruct q as [q|q|]; try reflexivity;
            try (now destruct N1); try (now destruct N2)).
    - cbn [forallb] in Hds. apply andb_prop in Hds. destruct Hds as [Hy _].
      destruct (is_digit_cases _ Hy)
        as [->|[->|[->|[->|[->|[->|[->|[->|[->| ->]]]]]]]]]; reflexivity. }
  rewrite Hp.
  rewrite (@parse_digits_prefix (x :: ds) r c None); [|cbn; now rewrite Hx0|exact Hv].
  cbn [parse_digits].
  assert (digit_value 10 x = Some (x - 48)%N) as ->.
  { destruct (is_digit_cases _ Hx0)
      as [->|[->|[->|[->|[->|[->|[->|[->|[->| ->]]]]]]]]]; reflexivity. }
  rewrite (parse_digits_decimal _ _ Hds). cbn [option_map]. unfold decimal.
  cbn [fold_left]. now rewrite Z.mul_1_l.
Qed.

(** X15: what follows the digits of a [limit] parameter is ignored: a
    limit made of decimal digits followed by any other character (but
    [x] and [X], which after a single [0] announce hexadecimal digits)
    and anything after it is answered exactly as the digits alone. *)
Theorem list_jobs_limit_prefix p st ds c r :
  ds <> [] -> forallb is_digit ds = true ->
  is_digit c = false -> c <> 120%N -> c <> 88%N ->
  list_jobs (set_limit (Some (ds ++ c :: r)) p) st
  = list_jobs (set_limit (Some ds) p) st.
Proof.
  intros Hne Hd Hc Hx HX. rewrite !list_jobs_eq.
  assert (Hl : limitNum (set_limit (Some (ds ++ c :: r)) p)
               = limitNum (set_limit (Some ds) p)).
  { unfold limitNum, set_limit. cbn [limit].
    destruct ds as [|x ds]; [now destruct Hne|]. cbn [app supplied].
    now apply (@parseInt_prefix (x :: ds)). }
  now rewrite Hl.
Qed.

(** ** Listing applications *)

Definition app_newest_first (a b : application) : Prop :=
  (app_created_at b <= app_created_at a)%Z.

Lemma insert_application_perm dir x l :
  Permutation (insert_application dir x l) (x :: l).
Proof.
  induction l as [|y l IH]; cbn; [reflexivity|].
  destruct (app_before dir y x); [|reflexivity].
  rewrite IH. apply perm_swap.
Qed.

Lemma insert_application_newest_first x l :
  StronglySorted app_newest_first l ->
  StronglySorted app_newest_first (insert_application (-1) x l).
Proof.
  induction l as [|y l IH]; intros Hs; cbn [insert_application].
  - constructor; constructor.
  - apply StronglySorted_inv in Hs. destruct Hs as [Hs Hy].
    unfold app_before. cbn [Z.ltb Z.compare].
    destruct (app_created_at x <=? app_created_at y)%Z eqn:L.
    + apply Z.leb_le in L. constructor; [now apply IH|].
      apply Forall_forall. intros z Hz.
      apply (Permutation_in _ (insert_application_perm (-1) x l)) in Hz.
      destruct Hz as [<-|Hz]; [exact L|].
      rewrite Forall_forall in Hy. now apply Hy.
    + apply Z.leb_gt in L. constructor; [now constructor|].
      constructor; [unfold app_newest_first; lia|].
      eapply Forall_impl; [|exact Hy]. unfold app_newest_first. intros z. lia.
Qed.

Lemma sort_applications_perm dir l : Permutation (sort_applications dir l) l.
Proof.
  unfold sort_applications.
  assert (H : forall acc,
    Permutation (fold_left (fun acc x => insert_application dir x acc) l acc)
                (acc ++ l)).
  { induction l as [|x l IH]; intros acc; cbn [fold_left].
    - now rewrite app_nil_r.
    - rewrite IH, insert_application_perm. apply Permutation_middle. }
  apply (H []).
Qed.

Lemma sort_applications_newest_first l :
  StronglySorted app_newest_first (sort_applications (-1) l).
Proof.
  unfold sort_applications.
  assert (H : forall acc, StronglySorted app_newest_first acc ->
    StronglySorted app_newest_first
      (fold_left (fun acc x => insert_application (-1) x acc) l acc)).
  { induction l as [|x l IH]; intros acc Ha; cbn [fold_left]; auto.
    apply IH. now apply insert_application_newest_first. }
  apply H. constructor.
Qed.

(** X16: the list-applications route answers 200 with all the
    applications of the collection, each once, newest first, and their
    number as total; it writes nothing. *)
Theorem get_applications_answers st :
  exists applications,
    get_applications st
    = ({| code := 200;
          body := AList applications
                    (List.length (applicationsCollection st)) |}, st)
    /\ Permutation applications (applicationsCollection st)
    /\ StronglySorted app_newest_first applications.
Proof.
  exists (sort_applications (-1) (applicationsCollection st)).
  pose proof (sort_applications_perm (-1) (applicationsCollection st)) as Hp.
  unfold get_applications. rewrite (Permutation_length Hp).
  repeat split; [exact Hp|apply sort_applications_newest_first].
Qed.

(** X17: the applications-of-a-job route writes nothing and answers in
    one of two ways: 400 [Invalid job ID] when the identifier is not
    valid; 200 otherwise, with exactly the applications that refer to
    the identifier, newest first, and their number as total.  It does
    not look the job up: for an identifier that no job has, the answer
    is 200 all the same, never 404. *)
Theorem applications_for_job_answers jobId st :
  isValid (VStr jobId) = false
  /\ applications_for_job jobId st
     = ({| code := 400; body := AError (lit "Invalid job ID") |}, st)
  \/ isValid (VStr jobId) = true
  /\ exists applications,
       applications_for_job jobId st
       = ({| code := 200;
             body := AList applications (List.length applications) |}, st)
       /\ (forall a, In a applications
                     <-> In a (applicationsCollection st)
                         /\ job_id a = newObjectId (VStr jobId))
       /\ StronglySorted app_newest_first applications.
Proof.
  unfold applications_for_job.
  destruct (isValid (VStr jobId)); [right|left; now split].
  split; [reflexivity|]. eexists. split; [reflexivity|]. split.
  - intros a.
    assert (Hf : In a (filter (refers_to (newObjectId (VStr jobId)))
                         (applicationsCollection st))
                 <-> In a (applicationsCollection st)
                     /\ job_id a = newObjectId (VStr jobId)).
    { rewrite filter_In. unfold refers_to.
      destruct (oid_eq_dec (job_id a) (newObjectId (VStr jobId)));
        intuition congruence. }
    rewrite <- Hf. split; apply Permutation_in.
    + apply sort_applications_perm.
    + symmetry. apply sort_applications_perm.
  - apply sort_applications_newest_first.
Qed.

(** X18: an application that was accepted is listed afterwards: the
    applications-of-a-job route, asked for the job reference of the
    request, returns an application with the generated identifier. *)
Theorem submit_application_then_listed now fresh b st s j :
  b_job_id b = VStr s -> s <> [] ->
  fields_valid b = true ->
  isValid (VStr s) = true ->
  In j (jobsCollection st) -> _id j = newObjectId (VStr s) ->
  app_unused fresh (applicationsCollection st) ->
  let st' := snd (submit_application now fresh b st) in
  status (fst (submit_application now fresh b st)) = 201
  /\ exists applications total a,
       applications_for_job s st'
       = ({| code := 200; body := AList applications total |}, st')
       /\ In a applications /\ app_id a = fresh /\ job_id a = _id j
       /\ app_created_at a = now.
Proof.
  intros Es Hs Hv Hval Hin Hj Hu st'.
  assert (Hid : truthy (b_job_id b) = true).
  { rewrite Es. now apply truthy_VStr. }
  unfold fields_valid in Hv. rewrite !andb_true_iff in Hv.
  destruct Hv as (((((Hn & He) & Hr) & Hc) & Hre) & Hurl).
  destruct (submit_application_present now fresh b st Hid Hn He Hr Hc)
    as (n & e & r & c & En & Ee & Er & Ec & Hsub).
  rewrite Ee in Hre. rewrite Er in Hurl.
  rewrite Hre, Hurl, Es, Hval in Hsub. cbn [negb] in Hsub.
  destruct (findOne (newObjectId (VStr s)) (jobsCollection st)) eqn:F.
  2:{ apply findOne_None_unused in F. now destruct (F j Hin). }
  cbv zeta in Hsub. rewrite (existsb_app_has_id_unused Hu) in Hsub.
  subst st'. rewrite Hsub. cbn [fst snd status]. split; [reflexivity|].
  unfold applications_for_job. rewrite Hval. cbn [negb applicationsCollection].
  do 3 eexists. split; [reflexivity|].
  match goal with |- In ?a _ /\ _ => instantiate (1 :=
    {| app_id := fresh; job_id := newObjectId (VStr s); name := trim n;
       email := toLowerCase (trim e); resume_link := trim r;
       cover_note := trim c; app_created_at := now |}) end.
  repeat split; [|now rewrite Hj].
  apply (Permutation_in _ (Permutation_sym (sort_applications_perm (-1) _))).
  apply filter_In. split.
  - apply in_or_app. right. now left.
  - unfold refers_to. cbn [job_id].
    now destruct (oid_eq_dec (newObjectId (VStr s)) (newObjectId (VStr s))).
Qed.

(** X19: deleting a job deletes none of its applications: the
    applications collection is as it was, the applications-of-a-job
    route gives for the deleted job the answer it gave before, and every
    application that refers to it now refers to no job. *)
Theorem delete_job_keeps_applications st j :
  ids_unique (jobsCollection st) ->
  In j (jobsCollection st) ->
  let st' := snd (delete_job (toHexString (_id j)) st) in
  applicationsCollection st' = applicationsCollection st
  /\ fst (applications_for_job (toHexString (_id j)) st')
     = fst (applications_for_job (toHexString (_id j)) st)
  /\ forall a, In a (applicationsCollection st') -> job_id a = _id j ->
       unused (job_id a) (jobsCollection st').
Proof.
  intros Hu Hj st'.
  destruct (@deleteOne_present _ j _ Hu Hj) as (c' & Hd & _ & Hun & _).
  assert (Est : st' = {| jobsCollection := c';
                         applicationsCollection := applicationsCollection st |}).
  { subst st'. unfold delete_job.
    rewrite toHexString_isValid, newObjectId_toHexString. cbn [negb].
    now rewrite Hd. }
  rewrite Est. cbn [applicationsCollection jobsCollection].
  split; [reflexivity|]. split.
  - unfold applications_for_job. now destruct (isValid _).
  - intros a _ ->. exact Hun.
Qed.

(** ** What every sequence of requests keeps *)

(** Application identifiers are unique in their collection. *)
Definition app_ids_unique (c : list application) : Prop :=
  NoDup (List.map app_id c).

(** Every application refers to a job of the jobs collection. *)
Definition refs_resolve (st : store) : Prop :=
  forall a, In a (applicationsCollection st) ->
  exists j, In j (jobsCollection st) /\ _id j = job_id a.

Lemma insertOne_ids_unique (d : job) (c c' : list job) :
  ids_unique c -> insertOne d c = Some c' -> ids_unique c'.
Proof.
  unfold insertOne, ids_unique. intros Hu.
  destruct (existsb (has_id (_id d)) c) eqn:X; [discriminate|].
  intros [= <-]. rewrite map_app. cbn [List.map].
  apply NoDup_app; auto.
  - constructor; [easy|constructor].
  - intros x Hx [<-|[]]. apply in_map_iff in Hx.
    destruct Hx as (k & Ek & Hk).
    assert (existsb (has_id (_id d)) c = true); [|congruence].
    apply existsb_exists. exists k. split; [assumption|].
    unfold has_id. now destruct (oid_eq_dec (_id k) (_id d)).
Qed.

Lemma insertMany_ids_unique (docs c : list job) :
  ids_unique c -> ids_unique (fst (insertMany docs c)).
Proof.
  revert c. induction docs as [|d docs IH]; intros c Hu; cbn; [assumption|].
  destruct (insertOne d c) as [c'|] eqn:I; [|assumption].
  apply IH. now apply (@insertOne_ids_unique d c c' Hu I).
Qed.

Lemma create_job_grows now fresh b st :
  incl (jobsCollection st) (jobsCollection (snd (create_job now fresh b st)))
  /\ applicationsCollection (snd (create_job now fresh b st))
     = applicationsCollection st.
Proof.
  destruct (required_present b) eqn:Hp.
  - destruct (create_job_present now fresh b st Hp)
      as (t & c & l & g & d & _ & _ & _ & _ & _ & _ & _ & _ & _ & _ & Hc).
    cbv zeta in Hc. rewrite Hc.
    destruct (existsb _ _); cbn [snd jobsCollection applicationsCollection];
      split; try reflexivity; [apply incl_refl|now apply incl_appl, incl_refl].
  - destruct (create_job_refused now fresh b st Hp) as [-> _].
    split; [apply incl_refl|reflexivity].
Qed.

Lemma submit_application_cases now fresh b st :
  snd (submit_application now fresh b st) = st
  \/ exists a j,
       snd (submit_application now fresh b st)
       = {| jobsCollection := jobsCollection st;
            applicationsCollection := applicationsCollection st ++ [a] |}
       /\ app_id a = fresh
       /\ existsb (app_has_id fresh) (applicationsCollection st) = false
       /\ In j (jobsCollection st) /\ _id j = job_id a.
Proof.
  destruct (submit_application_outcome now fresh b st) as [H|[H _]];
    [|now left].
  destruct (truthy (b_job_id b)) eqn:Hid.
  2:{ unfold submit_application in H. rewrite Hid in H. discriminate H. }
  assert (Hnb : forall v, nonblank v = false ->
            not_trim v = Next true \/ not_trim v = Throw).
  { intros v. destruct v; cbn; auto; try discriminate.
    intros X. apply negb_false_iff in X. rewrite X. auto. }
  assert (Hnn : forall v, nonblank v = true -> not_trim v = Next false).
  { intros v Hv. now destruct (nonblank_inv _ Hv) as (x & _ & Hx & _). }
  destruct (nonblank (b_name b)) eqn:Hn.
  2:{ unfold submit_application in H. rewrite Hid in H.
      destruct (Hnb _ Hn) as [X|X]; rewrite X in H; discriminate H. }
  destruct (nonblank (b_email b)) eqn:He.
  2:{ unfold submit_application in H. rewrite Hid, (Hnn _ Hn) in H.
      destruct (Hnb _ He) as [X|X]; rewrite X in H; discriminate H. }
  destruct (nonblank (b_resume_link b)) eqn:Hr.
  2:{ unfold submit_application in H.
      rewrite Hid, (Hnn _ Hn), (Hnn _ He) in H.
      destruct (Hnb _ Hr) as [X|X]; rewrite X in H; discriminate H. }
  destruct (nonblank (b_cover_note b)) eqn:Hc.
  2:{ unfold submit_application in H.
      rewrite Hid, (Hnn _ Hn), (Hnn _ He), (Hnn _ Hr) in H.
      destruct (Hnb _ Hc) as [X|X]; rewrite X in H; discriminate H. }
  destruct (submit_application_present now fresh b st Hid Hn He Hr Hc)
    as (n & e & r & c & _ & _ & _ & _ & Hs).
  rewrite Hs in H |- *.
  destruct (emailRegex_test e); cbn [negb] in *; [|now left].
  destruct (url_parses r); cbn [negb] in *; [|now left].
  destruct (isValid (b_job_id b)); cbn [negb] in *; [|now left].
  destruct (findOne _ _) as [j|] eqn:F; [|now left].
  cbv zeta in *. destruct (existsb _ _) eqn:X; [now left|right].
  destruct (findOne_Some _ _ F) as [Hin Hj].
  do 2 eexists. split; [reflexivity|]. cbn [app_id job_id].
  repeat split; eauto.
Qed.

Lemma handle_keeps_unique r st :
  ids_unique (jobsCollection st) ->
  app_ids_unique (applicationsCollection st) ->
  ids_unique (jobsCollection (snd (handle r st)))
  /\ app_ids_unique (applicationsCollection (snd (handle r st))).
Proof.
  intros Hu Ha. split.
  - apply (@serve_ids_unique _ [r] st Hu).
  - destruct r as [p|id|now fresh b|id|now fresh b]; cbn [handle].
    + rewrite list_jobs_eq. destruct (find_query _ _); [|assumption].
      now destruct (cursor_limit _ _).
    + unfold get_job. destruct (isValid _); [|assumption].
      now destruct (findOne _ _).
    + now rewrite (proj2 (create_job_grows now fresh b st)).
    + unfold delete_job. destruct (isValid _); [|assumption].
      destruct (deleteOne _ _) as [c n]. now destruct n.
    + destruct (submit_application_cases now fresh b st)
        as [->|(a & j & -> & Hid & Hx & _)]; [assumption|].
      cbn [applicationsCollection]. unfold app_ids_unique in *.
      rewrite map_app. cbn [List.map]. apply NoDup_app; auto.
      * constructor; [easy|constructor].
      * intros x Hx' [<-|[]]. apply in_map_iff in Hx'.
        destruct Hx' as (k & Ek & Hk).
        assert (existsb (app_has_id fresh) (applicationsCollection st) = true);
          [|congruence].
        apply existsb_exists. exists k. split; [assumption|].
        unfold app_has_id. rewrite Ek, Hid.
        now destruct (oid_eq_dec fresh fresh).
Qed.

(** X20: identifiers stay unique in both collections, whatever
    requests are handled, the seed route among them. *)
Theorem api_serve_ids_unique rs st :
  ids_unique (jobsCollection st) ->
  app_ids_unique (applicationsCollection st) ->
  ids_unique (jobsCollection (api_serve rs st))
  /\ app_ids_unique (applicationsCollection (api_serve rs st)).
Proof.
  unfold api_serve. revert st.
  induction rs as [|r rs IH]; intros st Hu Ha; cbn [fold_left]; [now split|].
  apply IH; destruct r as [r| |jobId|clock fresh details]; cbn [api_step];
    try (now apply handle_keeps_unique);
    try assumption;
    try (unfold applications_for_job; now destruct (isValid _)).
  - unfold seed.
    pose proof (@insertMany_ids_unique (sampleJobs clock fresh) []
                  (NoDup_nil _)) as Hs.
    destruct (insertMany _ _) as [jobs' [|]]; exact Hs.
  - unfold seed. now destruct (insertMany _ _) as [jobs' [|]].
Qed.

(** A request that deletes no job. *)
Definition keeps_jobs (r : api_request) : bool :=
  match r with
  | Route (DeleteJob _) | PostSeed _ _ _ => false
  | _ => true
  end.

(** X21: as long as no job is deleted (no delete-job and no seed
    request), every application keeps referring to a job of the jobs
    collection: an application is only stored for a job that exists. *)
Theorem api_serve_refs_resolve rs st :
  refs_resolve st ->
  forallb keeps_jobs rs = true ->
  refs_resolve (api_serve rs st).
Proof.
  unfold api_serve. revert st.
  induction rs as [|r rs IH]; intros st Hr Hk; cbn [fold_left]; [assumption|].
  cbn [forallb] in Hk. apply andb_prop in Hk. destruct Hk as [Hk Hks].
  apply IH; [|assumption]. clear IH Hks.
  destruct r as [[p|id|now fresh b|id|now fresh b]| |jobId|clock fresh details];
    cbn [api_step handle keeps_jobs] in *; try discriminate Hk.
  - rewrite list_jobs_eq. destruct (find_query _ _); [|assumption].
    now destruct (cursor_limit _ _).
  - unfold get_job. destruct (isValid _); [|assumption].
    now destruct (findOne _ _).
  - destruct (create_job_grows now fresh b st) as [Hincl Happs].
    intros a Hin. rewrite Happs in Hin.
    destruct (Hr a Hin) as (j & Hj & Hid). exists j.
    split; [now apply Hincl|assumption].
  - destruct (submit_application_cases now fresh b st)
      as [->|(a & j & -> & _ & _ & Hj & Hid)]; [assumption|].
    intros x Hin. cbn [applicationsCollection jobsCollection] in *.
    apply in_app_or in Hin. destruct Hin as [Hin|[<-|[]]].
    + now apply Hr.
    + now exists j.
  - assumption.
  - unfold applications_for_job. now destruct (isValid _).
Qed.

(** ** The seed route *)

Lemma insertMany_fresh (docs c : list job) :
  NoDup (List.map _id (c ++ docs)) ->
  insertMany docs c = (c ++ docs, true).
Proof.
  revert c. induction docs as [|d docs IH]; intros c Hnd; cbn [insertMany].
  - now rewrite app_nil_r.
  - unfold insertOne.
    assert (Hu : unused (_id d) c).
    { intros k Hk Hid. rewrite map_app in Hnd. cbn [List.map] in Hnd.
      apply NoDup_remove_2 in Hnd. apply Hnd. apply in_or_app. left.
      rewrite <- Hid. now apply in_map. }
    rewrite (existsb_has_id_unused Hu).
    rewrite IH; rewrite <- app_assoc; [reflexivity|exact Hnd].
Qed.

Lemma sampleJobs_ids clock fresh :
  List.map _id (sampleJobs clock fresh) = List.map fresh (seq 0 16).
Proof. reflexivity. Qed.

(** X22: when the sixteen identifiers the driver generates are distinct,
    the seed route answers 200 [Seeded 16 jobs successfully] and leaves
    as jobs collection the sixteen sample jobs and nothing else,
    whatever jobs there were before; the applications are as they
    were. *)
Theorem seed_replaces_jobs clock fresh details st :
  NoDup (List.map fresh (seq 0 16)) ->
  seed clock fresh details st
  = ({| code := 200;
        body := SMessage (lit "Seeded 16 jobs successfully") |},
     {| jobsCollection := sampleJobs clock fresh;
        applicationsCollection := applicationsCollection st |})
  /\ List.length (sampleJobs clock fresh) = 16.
Proof.
  intros Hnd. split; [|reflexivity]. unfold seed.
  rewrite insertMany_fresh; [reflexivity|].
  cbn [app]. now rewrite sampleJobs_ids.
Qed.

Lemma insert_sorted_last x acc :
  (forall y, In y acc -> newest_first y x) ->
  insert_sorted (-1) x acc = acc ++ [x].
Proof.
  induction acc as [|y acc IH]; intros H; cbn [insert_sorted app];
    [reflexivity|].
  unfold before. cbn [Z.ltb Z.compare].
  assert ((created_at x <=? created_at y)%Z = true) as ->.
  { apply Z.leb_le. apply (H y). now left. }
  rewrite IH; [reflexivity|]. intros z Hz. apply H. now right.
Qed.

Lemma StronglySorted_app_inv (l1 l2 : list job) :
  StronglySorted newest_first (l1 ++ l2) ->
  forall a b, In a l1 -> In b l2 -> newest_first a b.
Proof.
  induction l1 as [|x l1 IH]; intros Hs a b Ha Hb; [contradiction|].
  cbn [app] in Hs. apply StronglySorted_inv in Hs. destruct Hs as [Hs Hx].
  destruct Ha as [<-|Ha]; [|now apply IH].
  rewrite Forall_forall in Hx. apply Hx. apply in_or_app. now right.
Qed.

(** Sorting leaves a list that is already ordered as it is. *)
Lemma sort_created_at_sorted (l : list job) :
  StronglySorted newest_first l -> sort_created_at (-1) l = l.
Proof.
  unfold sort_created_at.
  assert (H : forall acc, StronglySorted newest_first (acc ++ l) ->
            fold_left (fun acc x => insert_sorted (-1) x acc) l acc
            = acc ++ l).
  { induction l as [|x l IH]; intros acc Hs; cbn [fold_left].
    - now rewrite app_nil_r.
    - rewrite insert_sorted_last.
      + rewrite IH; rewrite <- app_assoc; [reflexivity|exact Hs].
      + intros y Hy. apply (StronglySorted_app_inv _ _ Hs); [assumption|].
        now left. }
  intros Hs. now apply (H []).
Qed.

Lemma sampleJobs_newest_first clock fresh :
  (forall k, k < 15 -> (clock (S k) - clock k <= hour)%Z) ->
  StronglySorted newest_first (sampleJobs clock fresh).
Proof.
  intros H. apply Sorted_StronglySorted.
  { intros a b c. unfold newest_first. lia. }
  pose proof (H 0 ltac:(lia)). pose proof (H 1 ltac:(lia)).
  pose proof (H 2 ltac:(lia)). pose proof (H 3 ltac:(lia)).
  pose proof (H 4 ltac:(lia)). pose proof (H 5 ltac:(lia)).
  pose proof (H 6 ltac:(lia)). pose proof (H 7 ltac:(lia)).
  pose proof (H 8 ltac:(lia)). pose proof (H 9 ltac:(lia)).
  pose proof (H 10 ltac:(lia)). pose proof (H 11 ltac:(lia)).
  pose proof (H 12 ltac:(lia)). pose proof (H 13 ltac:(lia)).
  pose proof (H 14 ltac:(lia)).
  unfold sampleJobs. cbn [List.map].
  repeat (constructor;
          try (unfold newest_first, sample; cbn [created_at]; lia)).
Qed.

(** X23: when, besides, the clock readings taken for consecutive sample
    jobs are at most an hour apart (they are taken within one request),
    a list-jobs request without filter and limit that follows the seed
    returns the sixteen sample jobs in the order in which the source
    lists them: each is dated an hour before the one it follows. *)
Theorem seed_then_list_jobs clock fresh details st p :
  NoDup (List.map fresh (seq 0 16)) ->
  (forall k, k < 15 -> (clock (S k) - clock k <= hour)%Z) ->
  supplied (keyword p) = None -> supplied (p_location p) = None ->
  supplied (p_category p) = None -> wants_featured p = false ->
  supplied (limit p) = None ->
  let st' := snd (seed clock fresh details st) in
  list_jobs p st' = (res_json (PJobs (sampleJobs clock fresh) 16), st').
Proof.
  intros Hnd Hclock Hk Hl Hc Hf Hlim st'.
  assert (Est : jobsCollection st' = sampleJobs clock fresh).
  { subst st'. unfold seed. rewrite insertMany_fresh; [reflexivity|].
    cbn [app]. now rewrite sampleJobs_ids. }
  assert (Hall : filter (matches (build_query p)) (jobsCollection st')
                 = jobsCollection st').
  { apply forallb_filter_id. apply forallb_forall. intros d _.
    rewrite build_query_matches_aux.
    unfold keyword_filter, category_filter, location_filter, featured_filter.
    now rewrite Hk, Hl, Hc, Hf. }
  rewrite list_jobs_eq. unfold find_query, limitNum.
  rewrite (query_valid_no_pattern p Hk Hl Hc), Hlim, Hall, Est.
  cbn [cursor_limit Z.eqb].
  rewrite (sort_created_at_sorted (sampleJobs_newest_first clock fresh Hclock)).
  reflexivity.
Qed.

End MoreProperties.

(** * The handlers on sample inputs *)

#[local] Existing Instance Sample.externals.

Definition id1 : Sample.oid := Sample.id_of "65f1a0b2c3d4e5f601020301".
Definition id2 : Sample.oid := Sample.id_of "65f1a0b2c3d4e5f601020302".
Definition id3 : Sample.oid := Sample.id_of "65f1a0b2c3d4e5f601020303".
Definition id4 : Sample.oid := Sample.id_of "65f1a0b2c3d4e5f601020304".

Definition sample_job (id : Sample.oid) (t c g : string) (cats : list string)
  (at_ : Z) : job :=
  {| _id := id;
     title := VStr (lit t);
     company := VStr (lit c);
     location := VStr (lit "Berlin, Germany");
     category := match g with EmptyString => VUndefined | _ => VStr (lit g) end;
     categories := match cats with
                   | [] => VUndefined
                   | _ => VArr (List.map (fun x => VStr (lit x)) cats)
                   end;
     description := VStr (lit "Join the team.");
     type := VStr (lit "Full Time");
     featured := VBool false;
     logo := VNull;
     created_at := at_ |}.

Definition job1 : job :=
  sample_job id1 "Brand Designer" "Dropbox" "" ["Design"; "Business"]%string 1000.
Definition job2 : job :=
  sample_job id2 "Data Analyst" "Twitter" "Technology" [] 3000.
Definition job3 : job :=
  sample_job id3 "Product Designer" "Canva" "Design" [] 2000.

Definition store3 : store :=
  {| jobsCollection := [job1; job2; job3]; applicationsCollection := [] |}.

Definition no_params : jobs_params :=
  {| keyword := None; p_location := None; p_category := None;
     p_featured := None; limit := None; sort := None |}.

Definition design_designer : jobs_params :=
  {| keyword := Some (lit "designer"); p_location := None;
     p_category := Some (lit "design"); p_featured := None;
     limit := None; sort := Some (lit "oldest") |}.

Definition with_limit (l : string) : jobs_params :=
  {| keyword := None; p_location := None; p_category := None;
     p_featured := None; limit := Some (lit l); sort := None |}.

Definition sample_application (ref email_ : value) (name_ : value)
  : application_body :=
  {| b_job_id := ref;
     b_name := name_;
     b_email := email_;
     b_resume_link := VStr (lit "https://example.org/cv.pdf");
     b_cover_note := VStr (lit "I would like to apply.") |}.

Definition sample_body (title_ company_ : value) : job_body :=
  {| b_title := title_;
     b_company := company_;
     b_location := VStr (lit " Lisbon ");
     b_category := VStr (lit "Design");
     b_description := VStr (lit "Design things.");
     b_type := VUndefined;
     b_featured := VStr (lit "yes");
     b_logo := VUndefined |}.

Definition ann : application_body :=
  sample_application (VStr (lit "abc")) (VStr (lit "ann@example.org"))
    (VStr (lit "Ann")).

Definition ann_unknown_job : application_body :=
  sample_application (VStr (lit "65f1a0b2c3d4e5f601020304"))
    (VStr (lit "ann@example.org")) (VStr (lit "Ann")).

Definition ann_untrimmed : application_body :=
  sample_application (VStr (lit "65f1a0b2c3d4e5f601020302"))
    (VStr (lit " ann@example.org")) (VStr (lit "Ann")).

Definition anonymous_untrimmed : application_body :=
  sample_application (VStr (lit "65f1a0b2c3d4e5f601020302"))
    (VStr (lit " ann@example.org")) VUndefined.

(** C1 on a sample: the job reference ["abc"] is answered 400. *)
Lemma submit_invalid_job_id_400_run :
  b_job_id ann = VStr (lit "abc")
  /\ lit "abc" <> []
  /\ isValid (VStr (lit "abc")) = false
  /\ fields_valid ann = true
  /\ submit_application 5 id4 ann store3
     = (res_status 400 (PError (lit "Invalid job ID")), store3).
Proof.
  assert (Hne : lit "abc" <> []) by (intros H; discriminate H).
  split; [reflexivity|]. split; [exact Hne|].
  split; [reflexivity|]. split; [reflexivity|].
  apply (@submit_invalid_job_id_400 Sample.externals 5 id4 ann store3
           (lit "abc")); try reflexivity; exact Hne.
Defined.

(** C1 as the specification words it fails on the same sample: the
    request is in the domain of the claim and the status is not 404. *)
Lemma submit_invalid_job_id_not_404 :
  b_job_id ann = VStr (lit "abc")
  /\ lit "abc" <> []
  /\ isValid (VStr (lit "abc")) = false
  /\ fields_valid ann = true
  /\ status (fst (submit_application 5 id4 ann store3)) = 400
  /\ status (fst (submit_application 5 id4 ann store3)) <> 404.
Proof.
  assert (Hs : status (fst (submit_application 5 id4 ann store3)) = 400)
    by reflexivity.
  repeat split; try reflexivity.
  - intros H; discriminate H.
  - rewrite Hs. lia.
Qed.

(** C5 on a sample: a well-formed reference to no job is answered 404. *)
Lemma submit_unknown_job_404_run :
  submit_application 5 id4 ann_unknown_job store3
  = (res_status 404 (PError (lit "Job not found")), store3).
Proof.
  apply (@submit_unknown_job_404 Sample.externals 5 id4 ann_unknown_job
           store3); try reflexivity.
  intros j [<-|[<-|[<-|[]]]] H; vm_compute in H; discriminate H.
Defined.

(** C9 on a sample: [" ann@example.org"], whose trimmed form has the
    shape of the pattern, is answered 400. *)
Lemma submit_untrimmed_email_400_run :
  emailRegex_test (trim (lit " ann@example.org")) = true
  /\ submit_application 5 id4 ann_untrimmed store3
     = (res_status 400 (PError (lit "Invalid email format")), store3).
Proof.
  split; [reflexivity|].
  apply (@submit_untrimmed_email_400 Sample.externals 5 id4 ann_untrimmed
           store3 (lit " ann@example.org")); try reflexivity.
  intros H; discriminate H.
Defined.

(** C9 as the specification words it fails on a request without a name:
    the email starts with white space and the error is not [Invalid email
    format]. *)
Lemma submit_untrimmed_email_other_error :
  b_email anonymous_untrimmed = VStr (lit " ann@example.org")
  /\ outer_space (lit " ann@example.org") = true
  /\ submit_application 5 id4 anonymous_untrimmed store3
     = (res_status 400 (PError (lit "All fields are required")), store3)
  /\ json (fst (submit_application 5 id4 anonymous_untrimmed store3))
     <> PError (lit "Invalid email format").
Proof.
  repeat split; try reflexivity.
  intros H. vm_compute in H. discriminate H.
Qed.

(** C2 on a sample: keyword [designer] and category [design] together
    keep the two design jobs and drop the analyst; the first lacks a
    category field and matches through its categories array.  Both are
    literal text, and the groups are substring search. *)
Lemma build_query_keyword_and_category_run :
  (forall d,
     matches (build_query design_designer) d
     = keyword_group (lit "designer") d && category_group (lit "design") d
       && location_filter design_designer d
       && featured_filter design_designer d)
  /\ (forall d,
        matches (build_query design_designer) d = true
        <-> substring_keyword_group (lit "designer") d = true
            /\ substring_category_group (lit "design") d = true)
  /\ List.map (matches (build_query design_designer)) [job1; job2; job3]
     = [true; false; true].
Proof.
  destruct (@build_query_keyword_and_category Sample.externals
              design_designer (lit "designer") (lit "design")
              eq_refl eq_refl) as (_ & _ & Hm & _ & Hs).
  split; [exact Hm|]. split; [|reflexivity].
  apply Hs; try reflexivity; intros s; reflexivity.
Defined.

(** The request [keyword=^data&category=tech] and a job titled [Data
    Analyst], in the environment whose patterns know the anchor. *)
Definition anchored_data : jobs_params :=
  {| keyword := Some (lit "^data"); p_location := None;
     p_category := Some (lit "tech"); p_featured := None;
     limit := None; sort := None |}.

Definition data_analyst : @job Anchor.externals :=
  @Build_job Anchor.externals id2
    (VStr (lit "Data Analyst")) (VStr (lit "Twitter"))
    (VStr (lit "San Diego, US")) (VStr (lit "Technology")) VUndefined
    (VStr (lit "Derive insights from complex datasets."))
    (VStr (lit "Full Time")) (VBool true) VNull 3000.

(** C2 as the specification words it fails on the keyword [^data]: the
    request has a keyword and a category, the filter matches the job
    (the pattern matches the start of the title [Data Analyst], and
    [tech] is in its category), and the keyword is a case-insensitive
    substring of none of title, company and description: the
    character ["^"] occurs in none of them. *)
Lemma keyword_pattern_is_no_substring :
  supplied (keyword anchored_data) = Some (lit "^data")
  /\ supplied (p_category anchored_data) = Some (lit "tech")
  /\ @matches Anchor.externals (build_query anchored_data)
       data_analyst = true
  /\ substring_keyword_group (lit "^data") data_analyst = false
  /\ substring_category_group (lit "tech") data_analyst = true
  /\ ~ (@matches Anchor.externals
          (build_query anchored_data) data_analyst = true
        <-> substring_keyword_group (lit "^data") data_analyst = true
            /\ substring_category_group (lit "tech") data_analyst = true).
Proof.
  assert (Hm : @matches Anchor.externals
                 (build_query anchored_data) data_analyst
               = true) by reflexivity.
  assert (Hk : substring_keyword_group (lit "^data") data_analyst = false)
    by reflexivity.
  repeat split; try reflexivity.
  intros [H _]. specialize (H Hm). destruct H as [H _].
  rewrite Hk in H. discriminate H.
Qed.

Definition untitled : job_body :=
  sample_body VUndefined (VStr (lit "   ")).

Definition untitled_by_number : job_body :=
  sample_body VUndefined (VNum (S754_finite false 5 0)).

Definition lisbon : job_body :=
  sample_body (VStr (lit " Designer ")) (VStr (lit "Acme")).

(** C3 on a sample: an absent title and a blank company are both
    named. *)
Lemma create_job_missing_fields_400_run :
  exists message,
    create_job 5 id4 untitled store3 = (res_status 400 (PError message), store3)
    /\ message = lit "Missing required fields: title, company"
    /\ forall name v, In (name, v) (required untitled) ->
         is_missing v = true -> occurs_in (lit name) message.
Proof.
  destruct (@create_job_missing_fields_400 Sample.externals 5 id4 untitled
              store3) as (message & Hc & Hm & Hn); try reflexivity.
  exists message. repeat split; assumption.
Defined.

(** C3 as the specification words it fails on a request whose title is
    absent and whose company is the number 5: the status is 500. *)
Lemma create_job_missing_title_500 :
  b_title untitled_by_number = VUndefined
  /\ existsb (fun nv => is_missing (snd nv)) (required untitled_by_number)
     = true
  /\ create_job 5 id4 untitled_by_number store3
     = (res_status 500 (PError (lit "Failed to create job")), store3)
  /\ status (fst (create_job 5 id4 untitled_by_number store3)) <> 400.
Proof.
  assert (Hs : status (fst (create_job 5 id4 untitled_by_number store3)) = 500)
    by reflexivity.
  repeat split; try reflexivity.
  rewrite Hs. lia.
Qed.

Lemma id4_unused : unused id4 (jobsCollection store3).
Proof. intros j [<-|[<-|[<-|[]]]] H; vm_compute in H; discriminate H. Defined.

(** C4 on a sample. *)
Lemma create_job_then_get_job_run :
  exists newJob st',
    create_job 5 id4 lisbon store3
    = (res_status 201
         (PJobCreated (lit "Job created successfully") id4 newJob), st')
    /\ _id newJob = id4
    /\ In newJob (jobsCollection st')
    /\ get_job (lit "65f1a0b2c3d4e5f601020304") st'
       = (res_json (PJob newJob), st').
Proof.
  apply (@create_job_then_get_job Sample.externals 5 id4 lisbon store3);
    [reflexivity|exact id4_unused].
Defined.

(** C10 on a sample: the string [yes] is stored as the featured field,
    and the absent type becomes [Full Time]. *)
Lemma create_job_featured_and_type_run :
  exists stored,
    jobsCollection (snd (create_job 5 id4 lisbon store3))
    = jobsCollection store3 ++ [stored]
    /\ _id stored = id4
    /\ featured stored = VStr (lit "yes")
    /\ type stored = VStr (lit "Full Time").
Proof.
  apply (@create_job_featured_and_type Sample.externals 5 id4 lisbon store3);
    [reflexivity|exact id4_unused].
Defined.

Lemma store3_ids_unique : ids_unique (jobsCollection store3).
Proof.
  unfold ids_unique. cbn [store3 jobsCollection List.map].
  repeat constructor; cbn [In]; intros H;
    repeat (destruct H as [H|H]; [vm_compute in H; discriminate H|]);
    exact H.
Defined.

(** C6 on a sample. *)
Lemma delete_job_twice_run :
  exists st',
    delete_job (lit "65f1a0b2c3d4e5f601020302") store3
    = (res_json (PMessage (lit "Job deleted successfully")), st')
    /\ (forall k, In k (jobsCollection st')
                  <-> In k (jobsCollection store3) /\ k <> job2)
    /\ applicationsCollection st' = applicationsCollection store3
    /\ delete_job (lit "65f1a0b2c3d4e5f601020302") st'
       = (res_status 404 (PError (lit "Job not found")), st').
Proof.
  apply (@delete_job_twice Sample.externals store3 job2);
    [exact store3_ids_unique|right; left; reflexivity].
Defined.

(** C8 on a sample: the limit [2] keeps the two newest jobs. *)
Lemma list_jobs_limit_run :
  list_jobs (with_limit "2") store3 = (res_json (PJobs [job2; job3] 2), store3)
  /\ list_jobs (with_limit "0") store3
     = (res_json (PJobs [job2; job3; job1] 3), store3).
Proof.
  destruct (@list_jobs_limit Sample.externals (with_limit "2") store3
              eq_refl) as (Hpos & _ & _ & _).
  destruct (@list_jobs_limit Sample.externals (with_limit "0") store3
              eq_refl) as (_ & _ & Hzero & _).
  split.
  - apply (Hpos (lit "2")); [reflexivity|reflexivity|discriminate].
  - apply Hzero. right. exists (lit "0"). split; reflexivity.
Defined.

(** C8 as the specification words it fails on the limit ["2abc"]: it is
    not a positive integer, three jobs match, and two are returned. *)
Lemma list_jobs_limit_2abc_truncates :
  positive_integer (lit "2abc") = false
  /\ List.length (selected (with_limit "2abc") store3) = 3
  /\ list_jobs (with_limit "2abc") store3
     = (res_json (PJobs [job2; job3] 2), store3)
  /\ [job2; job3] <> selected (with_limit "2abc") store3.
Proof.
  repeat split; try reflexivity.
  intros H. apply (f_equal (@List.length job)) in H.
  vm_compute in H. discriminate H.
Qed.

(** * Further runs on sample inputs *)

Definition featured_only : jobs_params :=
  {| keyword := None; p_location := None; p_category := None;
     p_featured := Some (lit "true"); limit := None; sort := None |}.

Definition ann_for_job2 : application_body :=
  sample_application (VStr (lit "65f1a0b2c3d4e5f601020302"))
    (VStr (lit "Ann@Example.org")) (VStr (lit " Ann ")).

Definition ann_application : application :=
  {| app_id := id4;
     job_id := id2;
     name := lit "Ann";
     email := lit "ann@example.org";
     resume_link := lit "https://example.org/cv.pdf";
     cover_note := lit "I would like to apply.";
     app_created_at := 5 |}.

Definition store3_applied : store :=
  {| jobsCollection := [job1; job2; job3];
     applicationsCollection := [ann_application] |}.

Definition lisbon_job : job :=
  {| _id := id4;
     title := VStr (lit "Designer");
     company := VStr (lit "Acme");
     location := VStr (lit "Lisbon");
     category := VStr (lit "Design");
     categories := VUndefined;
     description := VStr (lit "Design things.");
     type := VStr (lit "Full Time");
     featured := VStr (lit "yes");
     logo := VNull;
     created_at := 5 |}.

(** The identifiers and the clock of a seed: sixteen identifiers that
    differ in their last byte, and readings all in the same
    millisecond. *)
Definition seed_id (k : nat) : Sample.oid :=
  let '(b1, b2, b3, b4, b5, b6, b7, b8, b9, b10, b11, _) := id1 in
  (b1, b2, b3, b4, b5, b6, b7, b8, b9, b10, b11,
   match Byte.of_nat (100 + k) with Some b => b | None => Byte.x00 end).

Definition seed_clock (k : nat) : Z := 1700000000000%Z.

Lemma seed_ids_distinct : NoDup (List.map seed_id (seq 0 16)).
Proof.
  apply (NoDup_map_inv
           (fun o : Sample.oid =>
              let '(_, _, _, _, _, _, _, _, _, _, _, b) := o in Byte.to_N b)).
  vm_compute.
  repeat (constructor; [cbn [In]; intros H;
                        repeat (destruct H as [H|H]; [discriminate H|]);
                        exact H|]).
  constructor.
Defined.

Lemma seed_clock_steady k : k < 15 -> (seed_clock (S k) - seed_clock k <= hour)%Z.
Proof. intros _. discriminate. Defined.

Lemma job3_not_job2 : job3 <> job2.
Proof.
  intros H. apply (f_equal _id) in H. vm_compute in H. discriminate H.
Defined.

Lemma id4_app_unused : app_unused id4 (applicationsCollection store3).
Proof. intros a []. Defined.

Lemma store3_applied_refs : refs_resolve store3_applied.
Proof.
  intros a [<-|[]]. exists job2. split; [right; left|]; reflexivity.
Defined.

Lemma store3_applied_app_ids : app_ids_unique (applicationsCollection store3_applied).
Proof. repeat constructor. intros []. Defined.

(** X1 on a sample. *)
Lemma list_jobs_filters_run :
  exists jobs,
    list_jobs design_designer store3
    = (res_json (PJobs jobs (List.length jobs)), store3)
    /\ forall j,
         In j jobs
         <-> In j (jobsCollection store3)
             /\ keyword_filter design_designer j = true
             /\ category_filter design_designer j = true
             /\ location_filter design_designer j = true
             /\ featured_filter design_designer j = true.
Proof.
  apply (@list_jobs_filters Sample.externals design_designer store3);
    reflexivity.
Defined.

(** X2 on a sample. *)
Lemma list_jobs_everything_run :
  exists jobs,
    list_jobs no_params store3 = (res_json (PJobs jobs 3), store3)
    /\ Permutation jobs (jobsCollection store3)
    /\ StronglySorted newest_first jobs.
Proof.
  apply (@list_jobs_everything Sample.externals no_params store3);
    reflexivity.
Defined.

(** X4 on a sample. *)
Lemma get_job_present_run :
  get_job (lit "65f1a0b2c3d4e5f601020302") store3
  = (res_json (PJob job2), store3).
Proof.
  apply (@get_job_present Sample.externals store3 job2);
    [exact store3_ids_unique|right; left; reflexivity].
Defined.

(** X6 on a sample. *)
Lemma delete_job_then_get_job_run :
  let st' := snd (delete_job (lit "65f1a0b2c3d4e5f601020302") store3) in
  get_job (lit "65f1a0b2c3d4e5f601020302") st'
  = (res_status 404 (PError (lit "Job not found")), st')
  /\ get_job (lit "65f1a0b2c3d4e5f601020303") st'
     = (res_json (PJob job3), st').
Proof.
  apply (@delete_job_then_get_job Sample.externals store3 job2 job3);
    [exact store3_ids_unique|right; left; reflexivity
    |right; right; left; reflexivity|exact job3_not_job2].
Defined.

(** X7 on a sample: [" Designer "] and [" Lisbon "] are stored
    trimmed. *)
Lemma create_job_adds_trimmed_run :
  In lisbon_job (jobsCollection (snd (create_job 5 id4 lisbon store3)))
  /\ (In lisbon_job (jobsCollection store3)
      \/ (_id lisbon_job = id4 /\ created_at lisbon_job = 5%Z
          /\ categories lisbon_job = VUndefined
          /\ forallb trimmed_text
               [title lisbon_job; company lisbon_job; location lisbon_job;
                category lisbon_job; description lisbon_job] = true
          /\ jobsCollection (snd (create_job 5 id4 lisbon store3))
             = jobsCollection store3 ++ [lisbon_job])).
Proof.
  assert (Hin : In lisbon_job
                  (jobsCollection (snd (create_job 5 id4 lisbon store3)))).
  { right; right; right; left. reflexivity. }
  split; [exact Hin|].
  exact (@create_job_adds_trimmed Sample.externals 5 id4 lisbon store3
           lisbon_job Hin).
Defined.

(** X9 on a sample: the job created with the featured value ["yes"] is
    not listed as featured. *)
Lemma create_job_then_list_featured_run :
  exists jobs total,
    list_jobs featured_only (snd (create_job 5 id4 lisbon store3))
    = (res_json (PJobs jobs total), snd (create_job 5 id4 lisbon store3))
    /\ ((exists j, In j jobs /\ _id j = id4)
        <-> equals_bool true (VStr (lit "yes")) = true).
Proof.
  apply (@create_job_then_list_featured Sample.externals 5 id4 lisbon store3
           featured_only); try reflexivity.
  exact id4_unused.
Defined.

(** X10 on a sample: the name [" Ann "] is stored trimmed and the email
    [Ann@Example.org] lower-cased. *)
Lemma submit_application_created_run :
  submit_application 5 id4 ann_for_job2 store3
  = (res_status 201
       (PApplicationCreated (lit "Application submitted successfully") id4),
     store3_applied).
Proof.
  destruct (@submit_application_created Sample.externals 5 id4 ann_for_job2
              store3 job2)
    as (n & e & r & c & En & Ee & Er & Ec & Hs);
    [reflexivity|reflexivity|reflexivity|right; left; reflexivity
    |reflexivity|exact id4_app_unused|].
  injection En as <-. injection Ee as <-.
  injection Er as <-. injection Ec as <-.
  exact Hs.
Defined.

(** X11 on a sample: an application without a name. *)
Lemma submit_application_missing_field_run :
  submit_application 5 id4 anonymous_untrimmed store3
  = (res_status 400 (PError (lit "All fields are required")), store3).
Proof.
  apply (@submit_application_missing_field Sample.externals 5 id4
           anonymous_untrimmed store3).
  right. split; reflexivity.
Defined.

Definition ann_no_link : application_body :=
  {| b_job_id := VStr (lit "not an identifier");
     b_name := VStr (lit "Ann");
     b_email := VStr (lit "ann@example.org");
     b_resume_link := VStr (lit "cv.pdf");
     b_cover_note := VStr (lit "I would like to apply.") |}.

(** X12 on a sample: a resume link that does not parse is reported
    before the job reference, which is not valid either. *)
Lemma submit_application_check_order_run :
  isValid (b_job_id ann_no_link) = false
  /\ submit_application 5 id4 ann_no_link store3
     = (res_status 400 (PError (lit "Resume link must be a valid URL")),
        store3).
Proof.
  split; [reflexivity|].
  apply (proj2 (@submit_application_check_order Sample.externals 5 id4
                  ann_no_link store3 (lit "ann@example.org") (lit "cv.pdf")
                  eq_refl eq_refl eq_refl eq_refl
                  ltac:(intros H; discriminate H) eq_refl
                  ltac:(intros H; discriminate H))); reflexivity.
Defined.

(** X15 on a sample: the limit [2abc] is answered as the limit [2]. *)
Lemma list_jobs_limit_prefix_run :
  list_jobs (with_limit "2abc") store3 = list_jobs (with_limit "2") store3.
Proof.
  apply (@list_jobs_limit_prefix Sample.externals no_params store3
           (lit "2") 97%N (lit "bc")); try reflexivity;
    intros H; discriminate H.
Defined.

(** X18 on a sample. *)
Lemma submit_application_then_listed_run :
  let st' := snd (submit_application 5 id4 ann_for_job2 store3) in
  status (fst (submit_application 5 id4 ann_for_job2 store3)) = 201
  /\ exists applications total a,
       applications_for_job (lit "65f1a0b2c3d4e5f601020302") st'
       = ({| code := 200; body := AList applications total |}, st')
       /\ In a applications /\ app_id a = id4 /\ job_id a = _id job2
       /\ app_created_at a = 5%Z.
Proof.
  apply (@submit_application_then_listed Sample.externals 5 id4 ann_for_job2
           store3 (lit "65f1a0b2c3d4e5f601020302") job2); try reflexivity.
  - intros H; discriminate H.
  - right; left; reflexivity.
  - exact id4_app_unused.
Defined.

(** X19 on a sample: the application for the deleted job stays. *)
Lemma delete_job_keeps_applications_run :
  let st' := snd (delete_job (lit "65f1a0b2c3d4e5f601020302") store3_applied) in
  applicationsCollection st' = [ann_application]
  /\ fst (applications_for_job (lit "65f1a0b2c3d4e5f601020302") st')
     = fst (applications_for_job (lit "65f1a0b2c3d4e5f601020302")
              store3_applied)
  /\ forall a, In a (applicationsCollection st') -> job_id a = _id job2 ->
       unused (job_id a) (jobsCollection st').
Proof.
  apply (@delete_job_keeps_applications Sample.externals store3_applied job2);
    [exact store3_ids_unique|right; left; reflexivity].
Defined.

Definition sample_requests : list api_request :=
  [Route (PostJob 5 id4 lisbon);
   Route (PostApplication 6 id3 ann_for_job2);
   GetApplicationsFor (lit "65f1a0b2c3d4e5f601020302");
   Route (GetJobs design_designer);
   GetApplications].

(** X20 on a sample: requests that end with a seed. *)
Lemma api_serve_ids_unique_run :
  let st' :=
    api_serve (sample_requests ++ [PostSeed seed_clock seed_id []])
      store3_applied in
  ids_unique (jobsCollection st')
  /\ app_ids_unique (applicationsCollection st').
Proof.
  apply (@api_serve_ids_unique Sample.externals);
    [exact store3_ids_unique|exact store3_applied_app_ids].
Defined.

(** X21 on a sample. *)
Lemma api_serve_refs_resolve_run :
  refs_resolve (api_serve sample_requests store3_applied).
Proof.
  apply (@api_serve_refs_resolve Sample.externals sample_requests
           store3_applied); [exact store3_applied_refs|reflexivity].
Defined.

(** X22 on a sample: the three jobs of the collection are gone. *)
Lemma seed_replaces_jobs_run :
  seed seed_clock seed_id [] store3_applied
  = ({| code := 200;
        body := SMessage (lit "Seeded 16 jobs successfully") |},
     {| jobsCollection := sampleJobs seed_clock seed_id;
        applicationsCollection := [ann_application] |})
  /\ List.length (sampleJobs seed_clock seed_id) = 16.
Proof.
  apply (@seed_replaces_jobs Sample.externals seed_clock seed_id []
           store3_applied). exact seed_ids_distinct.
Defined.

(** X23 on a sample. *)
Lemma seed_then_list_jobs_run :
  let st' := snd (seed seed_clock seed_id [] store3_applied) in
  list_jobs no_params st'
  = (res_json (PJobs (sampleJobs seed_clock seed_id) 16), st').
Proof.
  apply (@seed_then_list_jobs Sample.externals seed_clock seed_id []
           store3_applied no_params); try reflexivity.
  - exact seed_ids_distinct.
  - exact seed_clock_steady.
Defined.
